(** * The experiment runner of irregular-temporal-gnn ([main.py])

    A shallow embedding of [get_config] and of the training part of [main]:
    the configuration dictionary, its validation, the training loop with
    early stopping, and the checkpoint that is saved afterwards.

    Python dictionaries are finite maps ([gmap string _]), Python sets are
    [gset string], Python integers are [Z].  Exceptions are results of an
    error monad that also records the calls made to the outside world
    (training, validation, logging, file writes) in order. *)

From Stdlib Require Import ZArith QArith Qcanon String List Lia.
From stdpp Require Import gmap strings pretty list list_numbers fin_maps numbers.

Set Warnings "-clear-no-such-hyp".

Local Open Scope string_scope.
Local Open Scope list_scope.
Local Open Scope Z_scope.

(** ** Python values and exceptions *)

Module Py.

(** A Python [float] as far as comparisons see it: a finite value (every
    finite double is a rational number), the two infinities, or not a
    number.  No arithmetic on floats is modelled. *)
Inductive float : Type :=
| NaN
| NegInf
| Fin (q : Qc)
| PosInf.

(** [np.inf] *)
Definition inf : float := PosInf.

(** [a < b] on floats: every comparison with NaN is false. *)
Definition float_lt (a b : float) : bool :=
  match a, b with
  | NaN, _ | _, NaN => false
  | NegInf, NegInf => false
  | NegInf, _ => true
  | Fin _, NegInf => false
  | Fin x, Fin y => bool_decide (x < y)%Qc
  | Fin _, PosInf => true
  | PosInf, _ => false
  end.

(** [a <= b] on floats. *)
Definition float_le (a b : float) : bool :=
  match a, b with
  | NaN, _ | _, NaN => false
  | NegInf, _ => true
  | Fin _, NegInf => false
  | Fin x, Fin y => bool_decide (x ≤ y)%Qc
  | Fin _, PosInf => true
  | PosInf, PosInf => true
  | PosInf, _ => false
  end.

(** The values a configuration entry can hold: what [argparse] produces
    ([None], [str], [int], [float]), the scalars of a JSON document
    ([null], booleans, numbers, strings), and the [torch.device] that
    [main] stores under ["device"].  JSON arrays and objects are not
    modelled as configuration values. *)
Inductive value : Type :=
| VNone
| VBool (b : bool)
| VInt (z : Z)
| VFloat (f : float)
| VStr (s : string)
| VDevice (cuda : bool).

(** A formatted message: the literal text and, for an f-string with one
    field, the value rendered into it. *)
Inductive message : Type :=
| Text (s : string)
| Format (prefix : string) (v : value).

Inductive exn : Type :=
| SystemExit                      (* argparse rejected the command line *)
| AssertionError (msg : message)
| JSONDecodeError
| AttributeError
| TypeError
| KeyError (key : value)
| ZeroDivisionError.

Inductive result (A : Type) : Type :=
| Ok (a : A)
| Raise (e : exn).
Arguments Ok {A} a.
Arguments Raise {A} e.

#[global] Instance result_ret : MRet result := λ A a, Ok a.
#[global] Instance result_bind : MBind result := λ A B f r,
  match r with
  | Ok a => f a
  | Raise e => Raise e
  end.

Definition raises {A} (r : result A) : Prop := ∃ e, r = Raise e.

(** Numbers compare across [bool], [int] and [float] by their exact
    mathematical value. *)
Definition as_number (v : value) : option float :=
  match v with
  | VBool b => Some (Fin (Qc_of_Z (if b then 1 else 0)))
  | VInt z => Some (Fin (Qc_of_Z z))
  | VFloat f => Some f
  | _ => None
  end.

(** [a < b]: numbers with numbers, strings with strings (by code point),
    anything else is a [TypeError]. *)
Definition lt (a b : value) : result bool :=
  match as_number a, as_number b with
  | Some x, Some y => Ok (float_lt x y)
  | _, _ =>
      match a, b with
      | VStr s, VStr t => Ok (String.ltb s t)
      | _, _ => Raise TypeError
      end
  end.

(** [a <= b] *)
Definition le (a b : value) : result bool :=
  match as_number a, as_number b with
  | Some x, Some y => Ok (float_le x y)
  | _, _ =>
      match a, b with
      | VStr s, VStr t => Ok (String.leb s t)
      | _, _ => Raise TypeError
      end
  end.

(** [a > b] *)
Definition gt (a b : value) : result bool := lt b a.

(** [bool(v)] *)
Definition truthy (v : value) : bool :=
  match v with
  | VNone => false
  | VBool b => b
  | VInt z => negb (Z.eqb z 0)
  | VFloat (Fin q) => negb (bool_decide (q = Qc_of_Z 0))
  | VFloat _ => true
  | VStr s => negb (String.eqb s "")
  | VDevice _ => true
  end.

(** [v in d] for a dictionary [d] whose keys are the strings [keys]:
    every modelled value is hashable, and only a string can equal a key. *)
Definition in_keys (v : value) (keys : gset string) : bool :=
  match v with
  | VStr s => bool_decide (s ∈ keys)
  | _ => false
  end.

(** [d[k]] *)
Definition getitem {A} (d : gmap string A) (k : string) : result A :=
  match d !! k with
  | Some v => Ok v
  | None => Raise (KeyError (VStr k))
  end.

(** [assert cond, msg] once [cond] has been evaluated *)
Definition assert (cond : bool) (msg : message) : result unit :=
  if cond then Ok tt else Raise (AssertionError msg).

(** [sep.join(parts)] *)
Fixpoint join (sep : string) (parts : list string) : string :=
  match parts with
  | [] => ""
  | [p] => p
  | p :: rest => p +:+ sep +:+ join sep rest
  end.

(** [os.path.join(a, b)] on a POSIX system *)
Definition path_join (a b : string) : string :=
  if String.prefix "/" b then b
  else if String.eqb a "" then b
  else if String.eqb (String.substring (String.length a - 1)%nat 1%nat a) "/"
       then a +:+ b
  else a +:+ "/" +:+ b.

End Py.

(** ** [get_config] *)

Module Config.
Import Py.

(** [MODELS] (lines 19-23): the three model classes by name. *)
Inductive model_class : Type := GRUModel | GRUNodeModel | GRUGraphModel.

Definition MODELS : gmap string model_class :=
  <["gru" := GRUModel]> (<["gru_node" := GRUNodeModel]>
    (<["gru_graph" := GRUGraphModel]> ∅)).

(** The [type=] of an [add_argument] call. *)
Inductive argtype : Type := TStr | TInt | TFloat.

Definition has_type (t : argtype) (v : value) : bool :=
  match t, v with
  | TStr, VStr _ | TInt, VInt _ | TFloat, VFloat _ => true
  | _, _ => false
  end.

(** The double nearest to [1e-3]. *)
Definition lr_default : float :=
  Fin (Q2Qc (1152921504606847 # 1152921504606846976)).

(** The [add_argument] calls of lines 28-92, in order: option name, type
    and default ([--config] has no default, so it defaults to [None]). *)
Definition OPTIONS : list (string * (argtype * value)) :=
  [ ("config", (TStr, VNone));
    ("model", (TStr, VStr "gru_graph"));
    ("dataset", (TStr, VStr "la_node_0.25"));
    ("seed", (TInt, VInt 42));
    ("optimizer", (TStr, VStr "adam"));
    ("init_points", (TInt, VInt 5));
    ("test", (TInt, VInt 0));
    ("gru_layers", (TInt, VInt 1));
    ("decay_type", (TStr, VStr "dynamic"));
    ("time_input", (TInt, VInt 1));
    ("mask_input", (TInt, VInt 0));
    ("hidden_dim", (TInt, VInt 32));
    ("n_fc", (TInt, VInt 2));
    ("pred_gnn", (TInt, VInt 1));
    ("gru_gnn", (TInt, VInt 1));
    ("gnn_type", (TStr, VStr "graphconv"));
    ("node_params", (TInt, VInt 1));
    ("epochs", (TInt, VInt 10));
    ("val_interval", (TInt, VInt 1));
    ("patience", (TInt, VInt 10));
    ("loss", (TStr, VStr "mse"));
    ("lr", (TFloat, VFloat lr_default));
    ("l2_reg", (TFloat, VFloat (Fin (Qc_of_Z 0))));
    ("batch_size", (TInt, VInt 32));
    ("learn_init_state", (TInt, VInt 1));
    ("state_updates", (TStr, VStr "obs"));
    ("plot_pred", (TInt, VInt 3));
    ("max_nodes_plot", (TInt, VInt 5));
    ("save_pdf", (TInt, VInt 0)) ].

Definition option_table : gmap string (argtype * value) := list_to_map OPTIONS.

(** The names [argparse] defines. *)
Definition option_names : gset string := dom option_table.

Definition defaults : gmap string value := snd <$> option_table.

(** [parser.parse_args()] followed by [vars(args)].  The command line is
    given by the options it supplies, already converted by their [type=]:
    an option that is not defined, or a value its [type=] rejects, makes
    [argparse] exit; otherwise every option holds the supplied value or
    its default. *)
Definition option_accepts (k : string) (v : value) : bool :=
  match option_table !! k with
  | Some (t, _) => has_type t v
  | None => false
  end.

Definition cli_ok (cli : gmap string value) : bool :=
  bool_decide (map_Forall (λ k v, option_accepts k v = true) cli).

Definition parse_args (cli : gmap string value) : result (gmap string value) :=
  if cli_ok cli then Ok (cli ∪ defaults) else Raise SystemExit.

(** What is found at a path: nothing, or a file.  [json.load] turns a file
    that holds a JSON object into a dictionary, one that holds another JSON
    value into something without [keys()], and fails on any other file. *)
Inductive file : Type :=
| JsonObject (d : gmap string value)
| JsonOther
| Malformed.

(** The line of [unknown_error] for one option. *)
Definition unknown_line (opt : string) : string :=
  "Unknown option in config file: " +:+ opt.

(** Lines 97-110: read additional configuration from the file.  The set
    [unknown_options] is iterated in the order of [elements]; Python leaves
    the order of a set unspecified. *)
Definition read_config_file (fs : gmap string file)
    (config : gmap string value) : result (gmap string value) :=
  match config !! "config" with
  | None => Raise (KeyError (VStr "config"))
  | Some args_config =>
      if truthy args_config then
        match args_config with
        | VStr path =>
            match fs !! path with
            | None => Raise (AssertionError (Format "No config file: " args_config))
            | Some Malformed => Raise JSONDecodeError
            | Some JsonOther => Raise AttributeError
            | Some (JsonObject config_from_file) =>
                let unknown_options := dom config_from_file ∖ dom config in
                let unknown_error :=
                  join (String (Ascii.ascii_of_nat 10) "")
                       (unknown_line <$> elements unknown_options) in
                _ ← assert (bool_decide (unknown_options = ∅)) (Text unknown_error);
                Ok (config_from_file ∪ config)
            end
        | _ => Raise TypeError
        end
      else Ok config
  end.

Section Constants.
(** The key sets of [constants.OPTIMIZERS], [constants.LOSSES] and
    [constants.GNN_LAYERS]; [constants.py] is not part of the sources. *)
Variables OPTIMIZERS LOSSES GNN_LAYERS : gset string.

(** Lines 113-118 *)
Definition check_names (config : gmap string value) : result unit :=
  model ← getitem config "model";
  _ ← assert (in_keys model (dom MODELS)) (Format "Unknown model: " model);
  optimizer ← getitem config "optimizer";
  _ ← assert (in_keys optimizer OPTIMIZERS) (Format "Unknown optimizer: " optimizer);
  loss ← getitem config "loss";
  _ ← assert (in_keys loss LOSSES) (Format "Unknown loss: " loss);
  gnn_type ← getitem config "gnn_type";
  assert (in_keys gnn_type GNN_LAYERS) (Format "Unknown gnn_type: " gnn_type).

(** Lines 119-121 *)
Definition check_bounds (config : gmap string value) : result unit :=
  init_points ← getitem config "init_points";
  positive ← gt init_points (VInt 0);
  _ ← assert positive (Text "Need to have positive number of init points");
  plot_pred ← getitem config "plot_pred";
  batch_size ← getitem config "batch_size";
  fits ← le plot_pred batch_size;
  assert fits (Text "Can not make more plots than batch size").

(** Lines 25-123 *)
Definition get_config (cli : gmap string value) (fs : gmap string file)
    : result (gmap string value) :=
  config ← parse_args cli;
  config ← read_config_file fs config;
  _ ← check_names config;
  _ ← check_bounds config;
  Ok config.
End Constants.

(** What [main] reads off the first training sample and the machine
    (lines 133-161). *)
Record data_info : Type := {
  cuda_available : bool;
  num_nodes : Z;
  time_steps : Z;
  y_dim : Z;
  features : option Z   (* last dimension of [features], when present *)
}.

(** Lines 152-161: the entries [main] adds to the configuration. *)
Definition add_data_config (d : data_info) (config : gmap string value)
    : gmap string value :=
  let config := <["num_nodes" := VInt (num_nodes d)]> config in
  let config := <["time_steps" := VInt (time_steps d)]> config in
  let config := <["device" := VDevice (cuda_available d)]> config in
  let config := <["y_dim" := VInt (y_dim d)]> config in
  let config := <["has_features" := VBool (bool_decide (is_Some (features d)))]> config in
  match features d with
  | Some dim => <["feature_dim" := VInt dim]> config
  | None => <["feature_dim" := VInt 0]> config
  end.

(** [MODELS[name]] for any key value. *)
Definition models_getitem (name : value) : result model_class :=
  match name with
  | VStr s =>
      match MODELS !! s with
      | Some cls => Ok cls
      | None => Raise (KeyError name)
      end
  | _ => Raise (KeyError name)
  end.

(** Line 164: the class [main] instantiates, with the configuration it is
    given. *)
Definition create_model (d : data_info) (config : gmap string value)
    : result (model_class * gmap string value) :=
  let config := add_data_config d config in
  name ← getitem config "model";
  cls ← models_getitem name;
  Ok (cls, config).

(** A configuration entry holds one of the names in [keys]. *)
Definition names (config : gmap string value) (key : string)
    (keys : gset string) : Prop :=
  ∃ s, config !! key = Some (VStr s) ∧ s ∈ keys.

(** [s] occurs in [msg]. *)
Definition mentions (msg s : string) : Prop :=
  ∃ before after, msg = before +:+ s +:+ after.

(** [d[v]] for a dictionary [d] with the string keys [keys], as far as its
    keys go: the key that [v] hits, or [KeyError]. *)
Definition dict_key (keys : gset string) (v : value) : result string :=
  match v with
  | VStr s => if bool_decide (s ∈ keys) then Ok s else Raise (KeyError v)
  | _ => Raise (KeyError v)
  end.

(** Lines 165-167: the optimizer and the loss that [main] creates, by their
    names in [constants.OPTIMIZERS] and [constants.LOSSES], with the
    learning rate and the weight decay the optimizer is given. *)
Definition create_optimizer_and_loss (OPTIMIZERS LOSSES : gset string)
    (config : gmap string value) : result (string * value * value * string) :=
  optimizer ← getitem config "optimizer";
  opt ← dict_key OPTIMIZERS optimizer;
  lr ← getitem config "lr";
  l2_reg ← getitem config "l2_reg";
  loss ← getitem config "loss";
  loss_fn ← dict_key LOSSES loss;
  Ok (opt, lr, l2_reg, loss_fn).

End Config.

(** ** The training part of [main] *)

Module Train.
Import Py.

(** The calls [main] makes to the outside, in the order it makes them. *)
Inductive event (Params : Type) : Type :=
| TrainEpoch (epoch_i : Z)                               (* train.train_epoch *)
| ValEpoch (epoch_i : Z)                                 (* train.val_epoch *)
| PrintEpoch (epoch_i : Z) (train_loss val_mse : float)
| WandbLog (log_metrics : gmap string float) (step : Z)
| PrintStop
| TorchSave (obj : option Params) (path : string)        (* torch.save: what is written *)
| LoadStateDict (state : Params)
| PlotPrediction
| Savefig (path : string)
| WandbLogImage (fig_i : nat)
| Summary (metric : string) (val : float)
| SummaryHistogram (cell_id : nat)
| TestEpoch
| PrintTest.
Arguments TrainEpoch {Params}.
Arguments ValEpoch {Params}.
Arguments PrintEpoch {Params}.
Arguments WandbLog {Params}.
Arguments PrintStop {Params}.
Arguments TorchSave {Params}.
Arguments LoadStateDict {Params}.
Arguments PlotPrediction {Params}.
Arguments Savefig {Params}.
Arguments WandbLogImage {Params}.
Arguments Summary {Params}.
Arguments SummaryHistogram {Params}.
Arguments TestEpoch {Params}.
Arguments PrintTest {Params}.

(** A reference to model parameters: [model.state_dict()] refers to the
    live tensors of the model, so whatever trains or reloads the model
    changes what is seen through it; a copy is changed by nothing. *)
Inductive params_ref (Params : Type) : Type :=
| Live
| Copy (p : Params).
Arguments Live {Params}.
Arguments Copy {Params}.

(** The configuration entries the training part reads, with the types
    their [add_argument] calls declare. *)
Record settings : Type := {
  epochs : Z;
  val_interval : Z;
  patience : Z;
  save_pdf : Z;
  decay_type : string;
  test : Z
}.

(** The local variables of [main] that the loop updates, the state of the
    model, optimizer and data loaders ([world]), and the calls made so far
    (latest first). *)
Record state (World Params : Type) : Type := {
  world : World;
  best_val_loss : float;
  best_val_metrics : option (gmap string float);
  best_val_epoch : Z;
  best_params : option (params_ref Params);
  trace : list (event Params)
}.
Arguments world {World Params}.
Arguments best_val_loss {World Params}.
Arguments best_val_metrics {World Params}.
Arguments best_val_epoch {World Params}.
Arguments best_params {World Params}.
Arguments trace {World Params}.

(** How a [for] loop ends. *)
Inductive flow : Type := Continue | Break.
Inductive loop_exit : Type := Exhausted | Broke (epoch_i : Z).

(** [a % b] on integers *)
Definition py_mod (a b : Z) : result Z :=
  if Z.eqb b 0 then Raise ZeroDivisionError else Ok (a `mod` b).

(** [a / b] on integers.  Python rounds the quotient to a double; the exact
    quotient is kept here, which decides [a / b >= p] the same way as long
    as [|b| * max 1 |p|] stays below [2^53]. *)
Definition py_truediv (a b : Z) : result Qc :=
  if Z.eqb b 0 then Raise ZeroDivisionError else Ok (Qc_of_Z a / Qc_of_Z b)%Qc.

Section Run.
Context {World Params : Type}.

(** The functions of [train.py], [visualization.py] and of the [torch]
    module objects, none of which is part of the sources.  They act on
    the world in place; a [state_dict] is read off the world. *)
Variable train_epoch : World → World * float.
Variable val_epoch : World → World * gmap string float.
Variable test_epoch : World → World * gmap string float.
Variable state_dict : World → Params.
Variable load_state_dict : Params → World → World.
Variable plot_prediction : World → nat.     (* number of figures *)
Variable gru_cells : World → nat.           (* [len(model.gru_cells)] *)

(** [wandb.run.dir] and [constants.PARAM_FILE_NAME] *)
Variable run_dir : string.
Variable PARAM_FILE_NAME : string.

Variable config : settings.

#[local] Abbreviation state := (state World Params).

(** Computations of [main]: they change the state and return or raise. *)
Definition run (A : Type) : Type := state → state * result A.

#[export] Instance run_ret : MRet run := λ A a st, (st, Ok a).
#[export] Instance run_bind : MBind run := λ A B f m st,
  match m st with
  | (st', Ok a) => f a st'
  | (st', Raise e) => (st', Raise e)
  end.

Definition lift {A} (r : result A) : run A := λ st, (st, r).

Definition emit (ev : event Params) : run unit := λ st,
  ({| world := world st; best_val_loss := best_val_loss st;
      best_val_metrics := best_val_metrics st;
      best_val_epoch := best_val_epoch st; best_params := best_params st;
      trace := ev :: trace st |}, Ok tt).

Definition get {A} (f : state → A) : run A := λ st, (st, Ok (f st)).

(** A call of an outside function that works on the world. *)
Definition call {A} (f : World → World * A) (ev : event Params) : run A :=
  λ st,
  let (w, a) := f (world st) in
  ({| world := w; best_val_loss := best_val_loss st;
      best_val_metrics := best_val_metrics st;
      best_val_epoch := best_val_epoch st; best_params := best_params st;
      trace := ev :: trace st |}, Ok a).

(** What a reference holds when the world is [w]. *)
Definition contents (w : World) (r : params_ref Params) : Params :=
  match r with
  | Live => state_dict w
  | Copy p => p
  end.

(** [model.state_dict()] and [copy.deepcopy] *)
Definition model_state_dict : params_ref Params := Live.

Definition deepcopy (w : World) (r : params_ref Params) : params_ref Params :=
  Copy (contents w r).

(** Lines 196-199 *)
Definition record_best (epoch_val_loss : float)
    (log_metrics : gmap string float) (epoch_i : Z) : run unit := λ st,
  ({| world := world st; best_val_loss := epoch_val_loss;
      best_val_metrics := Some log_metrics;
      best_val_epoch := epoch_i;
      best_params := Some (deepcopy (world st) model_state_dict);
      trace := trace st |}, Ok tt).

(** Lines 170-173 *)
Definition init (w : World) : state :=
  {| world := w; best_val_loss := inf; best_val_metrics := None;
     best_val_epoch := -1; best_params := None; trace := [] |}.

(** Lines 184-186: [{"train_loss": ...}] updated with the validation
    metrics under their [val_] names. *)
Definition make_log_metrics (epoch_train_loss : float)
    (epoch_val_metrics : gmap string float) : gmap string float :=
  kmap (String.app "val_") epoch_val_metrics ∪ {["train_loss" := epoch_train_loss]}.

(** Lines 177-204: the body of the loop. *)
Definition epoch (epoch_i : Z) : run flow :=
  epoch_train_loss ← call train_epoch (TrainEpoch epoch_i);
  r ← lift (py_mod epoch_i (val_interval config));
  if Z.eqb r 0 then
    epoch_val_metrics ← call val_epoch (ValEpoch epoch_i);
    let log_metrics := make_log_metrics epoch_train_loss epoch_val_metrics in
    epoch_val_loss ← lift (getitem log_metrics "val_mse");
    _ ← emit (PrintEpoch epoch_i epoch_train_loss epoch_val_loss);
    _ ← emit (WandbLog log_metrics epoch_i);
    best ← get best_val_loss;
    _ ← (if float_lt epoch_val_loss best
         then record_best epoch_val_loss log_metrics epoch_i
         else mret tt);
    best_epoch ← get best_val_epoch;
    waited ← lift (py_truediv (epoch_i - best_epoch) (val_interval config));
    if bool_decide (Qc_of_Z (patience config) ≤ waited)%Qc then
      _ ← emit PrintStop;
      mret Break
    else mret Continue
  else mret Continue.

(** Lines 176-204: [for epoch_i in ...: ...] with its [break]. *)
Fixpoint for_epochs (epoch_is : list Z) : run loop_exit :=
  match epoch_is with
  | [] => mret Exhausted
  | epoch_i :: rest =>
      f ← epoch epoch_i;
      match f with
      | Break => mret (Broke epoch_i)
      | Continue => for_epochs rest
      end
  end.

(** [range(1, config["epochs"]+1)] *)
Definition epoch_range : list Z := seqZ 1 (epochs config).

Definition training_loop : run loop_exit := for_epochs epoch_range.

(** A [for] loop without [break]. *)
Fixpoint for_each {A} (body : A → run unit) (xs : list A) : run unit :=
  match xs with
  | [] => mret tt
  | x :: rest => _ ← body x; for_each body rest
  end.

Definition set_world (w : World) : run unit := λ st,
  ({| world := w; best_val_loss := best_val_loss st;
      best_val_metrics := best_val_metrics st;
      best_val_epoch := best_val_epoch st; best_params := best_params st;
      trace := trace st |}, Ok tt).

Definition set_best_val_metrics (m : gmap string float) : run unit := λ st,
  ({| world := world st; best_val_loss := best_val_loss st;
      best_val_metrics := Some m;
      best_val_epoch := best_val_epoch st; best_params := best_params st;
      trace := trace st |}, Ok tt).

(** Lines 206-208 *)
Definition param_save_path : string := path_join run_dir PARAM_FILE_NAME.

Definition save_params : run unit :=
  params ← get best_params;
  w ← get world;
  emit (TorchSave (contents w <$> params) param_save_path).

(** Lines 210-218: [load_state_dict] needs a state dict, not [None]. *)
Definition restore_and_plot : run unit :=
  params ← get best_params;
  match params with
  | None => lift (Raise TypeError)
  | Some r =>
      w ← get world;
      let p := contents w r in
      _ ← set_world (load_state_dict p w);
      _ ← emit (LoadStateDict p);
      w ← get world;
      _ ← emit PlotPrediction;
      for_each (λ fig_i,
          _ ← (if Z.eqb (save_pdf config) 0 then mret tt
               else emit (Savefig (path_join run_dir
                             ("val_pred_" +:+ pretty fig_i +:+ ".pdf"))));
          emit (WandbLogImage fig_i))
        (seq 0 (plot_prediction w))
  end.

(** Lines 220-229.  A dictionary is iterated in the order of
    [map_to_list]. *)
Definition update_summary : run unit :=
  metrics ← get best_val_metrics;
  match metrics with
  | None => lift (Raise TypeError)
  | Some m =>
      _ ← lift (getitem m "train_loss");
      let m := delete "train_loss" m in
      _ ← set_best_val_metrics m;
      _ ← for_each (λ kv, emit (Summary kv.1 kv.2)) (map_to_list m);
      if String.eqb (decay_type config) "to_const" then
        w ← get world;
        for_each (λ cell_id, emit (SummaryHistogram cell_id)) (seq 0 (gru_cells w))
      else mret tt
  end.

(** Lines 231-239 *)
Definition evaluate_test : run unit :=
  if Z.eqb (test config) 0 then mret tt
  else
    test_metrics ← call test_epoch TestEpoch;
    _ ← for_each (λ kv, emit (Summary ("test_" +:+ kv.1) kv.2))
          (map_to_list test_metrics);
    emit PrintTest.

(** Lines 169-239 *)
Definition main_train : run unit :=
  _ ← training_loop;
  _ ← save_params;
  _ ← restore_and_plot;
  _ ← update_summary;
  evaluate_test.

(** *** The run as a history of epochs

    The quantities the statements about the loop speak of, defined from the
    sequence of epochs alone (as if the loop never stopped early). *)

(** [epoch_i] is an epoch in which the model is validated. *)
Definition validated (epoch_i : Z) : bool :=
  negb (Z.eqb (val_interval config) 0) && Z.eqb (epoch_i `mod` val_interval config) 0.

(** The world at the end of epoch [epoch_i], from the world at its start. *)
Definition epoch_world (epoch_i : Z) (w : World) : World :=
  let w := (train_epoch w).1 in
  if validated epoch_i then (val_epoch w).1 else w.

(** The world after the first [n] epochs. *)
Fixpoint world_after (w0 : World) (n : nat) : World :=
  match n with
  | O => w0
  | S k => epoch_world (Z.of_nat (S k)) (world_after w0 k)
  end.

(** The [val_mse] that the validation of epoch [n] reports. *)
Definition val_mse_at (w0 : World) (n : nat) : option float :=
  (val_epoch (train_epoch (world_after w0 (pred n))).1).2 !! "mse".

(** The best validation MSE of the first [n] epochs. *)
Fixpoint best_mse (w0 : World) (n : nat) : float :=
  match n with
  | O => inf
  | S k =>
      let best := best_mse w0 k in
      match val_mse_at w0 (S k) with
      | Some v => if validated (Z.of_nat (S k)) && float_lt v best then v else best
      | None => best
      end
  end.

(** Epoch [n] is a validated epoch that strictly lowered the best
    validation MSE. *)
Definition lowered_best (w0 : World) (n : nat) : bool :=
  match val_mse_at w0 n with
  | Some v => validated (Z.of_nat n) && float_lt v (best_mse w0 (pred n))
  | None => false
  end.

(** The most recent such epoch among the first [n], [-1] when there is
    none. *)
Fixpoint last_lowered (w0 : World) (n : nat) : Z :=
  match n with
  | O => -1
  | S k => if lowered_best w0 (S k) then Z.of_nat (S k) else last_lowered w0 k
  end.

(** Epoch [n] is a validated epoch at which
    [(epoch_i - best_val_epoch) / val_interval >= patience]. *)
Definition patience_spent (w0 : World) (n : nat) : bool :=
  validated (Z.of_nat n) &&
  bool_decide (Qc_of_Z (patience config) ≤
               Qc_of_Z (Z.of_nat n - last_lowered w0 n) / Qc_of_Z (val_interval config))%Qc.

(** The number of epochs a finished loop went through. *)
Definition epochs_run (x : loop_exit) : nat :=
  match x with
  | Broke epoch_i => Z.to_nat epoch_i
  | Exhausted => Z.to_nat (epochs config)
  end.

(** Some validation among the first [n] epochs reported a [val_mse] below
    [np.inf]. *)
Definition some_finite_validation (w0 : World) (n : nat) : Prop :=
  ∃ k v, (1 ≤ k ≤ n)%nat ∧ validated (Z.of_nat k) = true ∧
         val_mse_at w0 k = Some v ∧ float_lt v inf = true.

(** The events a computation adds to the trace all satisfy [P]. *)
Definition emits {A} (P : event Params → Prop) (m : run A) : Prop :=
  ∀ st, ∃ new, trace (m st).1 = new ++ trace st ∧ Forall P new.

(** Computations that return and leave the best metrics and parameters
    alone. *)
Definition settles {A} (m : run A) : Prop :=
  ∀ st, (∃ a, (m st).2 = Ok a) ∧
        best_val_metrics (m st).1 = best_val_metrics st ∧
        best_params (m st).1 = best_params st.

(** The state of [main] after [n] epochs that neither stopped nor raised. *)
Definition after (w0 : World) (n : nat) (st : state) : Prop :=
  world st = world_after w0 n ∧
  best_val_loss st = best_mse w0 n ∧
  best_val_epoch st = last_lowered w0 n ∧
  best_params st =
    (if decide (last_lowered w0 n = -1) then None
     else Some (Copy (state_dict (world_after w0 (Z.to_nat (last_lowered w0 n)))))) ∧
  (if decide (last_lowered w0 n = -1) then best_val_metrics st = None
   else ∃ m, best_val_metrics st = Some m ∧ is_Some (m !! "train_loss")).

End Run.

(** The events of the training loop, and those of the reporting that
    follows the save. *)
Definition loop_event {Params} (ev : event Params) : Prop :=
  match ev with
  | TrainEpoch _ | ValEpoch _ | PrintEpoch _ _ _ | WandbLog _ _ | PrintStop => True
  | _ => False
  end.

Definition report_event {Params} (ev : event Params) : Prop :=
  match ev with
  | LoadStateDict _ | PlotPrediction | Savefig _ | WandbLogImage _
  | Summary _ _ | SummaryHistogram _ | TestEpoch | PrintTest => True
  | _ => False
  end.

(** The paths [torch.save] wrote to, latest first. *)
Fixpoint checkpoints {Params} (tr : list (event Params)) : list string :=
  match tr with
  | [] => []
  | TorchSave _ path :: rest => path :: checkpoints rest
  | _ :: rest => checkpoints rest
  end.

(** The epochs [train.train_epoch] was called for and the steps [wandb.log]
    was called with, latest first. *)
Fixpoint train_calls {Params} (tr : list (event Params)) : list Z :=
  match tr with
  | [] => []
  | TrainEpoch epoch_i :: rest => epoch_i :: train_calls rest
  | _ :: rest => train_calls rest
  end.

Fixpoint log_steps {Params} (tr : list (event Params)) : list Z :=
  match tr with
  | [] => []
  | WandbLog _ step :: rest => step :: log_steps rest
  | _ :: rest => log_steps rest
  end.

(** The variables that keep the best validation are all unset, or all set
    together: then the best metrics are a dictionary that was logged at step
    [best_val_epoch], their ["val_mse"] is [best_val_loss], which lies below
    [np.inf], and the best parameters are a copy. *)
Definition recorded {World Params} (st : state World Params) : Prop :=
  match best_params st, best_val_metrics st with
  | None, None => best_val_epoch st = -1 ∧ best_val_loss st = inf
  | Some (Copy _), Some m =>
      m !! "val_mse" = Some (best_val_loss st) ∧
      is_Some (m !! "train_loss") ∧
      float_lt (best_val_loss st) inf = true ∧
      WandbLog m (best_val_epoch st) ∈ trace st
  | _, _ => False
  end.

(** A call that an option switches on is made only when the option is set. *)
Definition asked_for {Params} (config : settings) (ev : event Params) : Prop :=
  match ev with
  | Savefig _ => save_pdf config ≠ 0
  | TestEpoch | PrintTest => test config ≠ 0
  | SummaryHistogram _ => decay_type config = "to_const"
  | _ => True
  end.

(** The calls of lines 213-218 for [n] figures, in the order they are
    made: each figure is saved as [val_pred_<i>.pdf] in the run directory
    when [save_pdf] is set, and logged as an image. *)
Definition figure_calls {Params} (run_dir : string) (config : settings) (n : nat)
    : list (event Params) :=
  flat_map (λ fig_i,
      (if Z.eqb (save_pdf config) 0 then []
       else [Savefig (path_join run_dir ("val_pred_" +:+ pretty fig_i +:+ ".pdf"))])
      ++ [WandbLogImage fig_i])
    (seq 0 n).

End Train.

(** ** Sample inputs *)

Module Sample.
Import Py Config Train.

(** Key sets standing for those of [constants.py]. *)
Definition optimizers : gset string := {["adam"; "sgd"]}.
Definition losses : gset string := {["mse"; "mae"]}.
Definition gnn_layers : gset string := {["graphconv"; "gcn"]}.

(** A command line [--config run.json --model gru_node --plot_pred 4] and
    two files. *)
Definition cli : gmap string value :=
  <["config" := VStr "run.json"]> (<["model" := VStr "gru_node"]>
    (<["plot_pred" := VInt 4]> ∅)).

Definition run_json : gmap string value :=
  <["model" := VStr "gru"]> (<["batch_size" := VInt 8]> ∅).

Definition typo_json : gmap string value :=
  <["modle" := VStr "gru"]> (<["batch_size" := VInt 8]> ∅).

Definition fs : gmap string file :=
  <["run.json" := JsonObject run_json]> (<["typo.json" := JsonObject typo_json]> ∅).

(** What [parse_args] makes of the command line, and the configuration
    once [run.json] is merged in. *)
Definition args : gmap string value := cli ∪ defaults.
Definition config : gmap string value := run_json ∪ args.

Definition data : data_info :=
  {| cuda_available := false; num_nodes := 207; time_steps := 288; y_dim := 1;
     features := None |}.

(** A world that only counts the epochs trained, with the validation MSE
    of each epoch read off a list. *)
Definition finite (z : Z) : float := Fin (Qc_of_Z z).

Definition train_epoch (w : nat) : nat * float := (S w, finite 0).

Definition val_epoch (mses : list float) (w : nat) : nat * gmap string float :=
  (w, {["mse" := nth (pred w) mses NaN]}).

Definition settings_of (epochs val_interval patience : Z) : settings :=
  {| epochs := epochs; val_interval := val_interval; patience := patience;
     save_pdf := 0; decay_type := "dynamic"; test := 0 |}.

(** Six epochs of validation MSEs, and a run of at most ten epochs that
    validates every epoch and waits three validations. *)
Definition mses : list float :=
  [finite 5; finite 3; finite 4; finite 4; finite 4; finite 1].

Definition patient : settings := settings_of 10 1 3.

Definition loop (mses : list float) (config : settings)
    : state nat nat * result loop_exit :=
  training_loop train_epoch (val_epoch mses) id config (Train.init 0%nat).

Definition main (mses : list float) (config : settings)
    : state nat nat * result unit :=
  main_train train_epoch (val_epoch mses) (val_epoch mses) id (λ p _, p)
    (λ _, 1%nat) (λ _, 1%nat) "/wandb/run" "best_params.pt" config (Train.init 0%nat).

(** More files: one the run does not name, and one that sets
    ["init_points"] to a string. *)
Definition bad_json : gmap string value := <["init_points" := VStr "five"]> ∅.

Definition fs_more : gmap string file :=
  <["bad.json" := JsonObject bad_json]> (<["other.json" := Malformed]> fs).

Definition cli_bad : gmap string value := <["config" := VStr "bad.json"]> ∅.
Definition cli_seed : gmap string value := <["seed" := VInt 7]> ∅.
Definition cli_missing : gmap string value := <["config" := VStr "none.json"]> ∅.

(** A validation that reports no ["mse"], and three epochs of falling
    validation MSEs. *)
Definition val_epoch_mae (w : nat) : nat * gmap string float :=
  (w, {["mae" := finite 1]}).

Definition falling : list float := [finite 5; finite 4; finite 3].

Definition main_mae (config : settings) : state nat nat * result unit :=
  main_train train_epoch val_epoch_mae val_epoch_mae id (λ p _, p)
    (λ _, 1%nat) (λ _, 1%nat) "/wandb/run" "best_params.pt" config (Train.init 0%nat).

End Sample.

(** ** Properties of [get_config] *)

Module ConfigSpec.
Import Py Config.

Lemma bind_Ok {A B} (r : result A) (f : A → result B) b :
  r ≫= f = Ok b ↔ ∃ a, r = Ok a ∧ f a = Ok b.
Proof.
  destruct r as [a|e]; simpl; split.
  - eauto.
  - intros (a' & [= ->] & H). exact H.
  - discriminate.
  - intros (a' & [=] & _).
Qed.

Lemma Ok_inj {A} (a b : A) : Ok a = Ok b → a = b.
Proof. by intros [=]. Qed.

Lemma assert_Ok cond msg : assert cond msg = Ok tt ↔ cond = true.
Proof. unfold assert. destruct cond; naive_solver. Qed.

Lemma in_keys_true v keys :
  in_keys v keys = true ↔ ∃ s, v = VStr s ∧ s ∈ keys.
Proof.
  destruct v; simpl; try (split; [discriminate | intros (? & [=] & _)]).
  rewrite bool_decide_eq_true. naive_solver.
Qed.

Lemma dom_MODELS : dom MODELS = {["gru"; "gru_node"; "gru_graph"]}.
Proof. unfold MODELS. rewrite !dom_insert_L, dom_empty_L. set_solver. Qed.

Lemma dom_defaults : dom defaults = option_names.
Proof. unfold defaults, option_names. apply dom_fmap_L. Qed.

Lemma cli_ok_dom cli : cli_ok cli = true → dom cli ⊆ option_names.
Proof.
  unfold cli_ok. rewrite bool_decide_eq_true. intros H k Hk.
  apply elem_of_dom in Hk as [v Hv]. specialize (H k v Hv).
  unfold option_accepts in H. apply elem_of_dom.
  destruct (option_table !! k); [eauto | done].
Qed.

Lemma parse_args_Ok cli args :
  parse_args cli = Ok args ↔ cli_ok cli = true ∧ args = cli ∪ defaults.
Proof. unfold parse_args. destruct (cli_ok cli); naive_solver. Qed.

Lemma parse_args_dom cli args : parse_args cli = Ok args → dom args = option_names.
Proof.
  intros [Hok ->]%parse_args_Ok. rewrite dom_union_L, dom_defaults.
  apply cli_ok_dom in Hok. generalize dependent option_names. set_solver.
Qed.

Lemma append_assoc (a b c : string) : (a +:+ b) +:+ c = a +:+ b +:+ c.
Proof. induction a as [|ch a IH]; [done | exact (f_equal (String ch) IH)]. Qed.

Lemma join_mentions sep parts s : s ∈ parts → mentions (join sep parts) s.
Proof.
  induction parts as [|p rest IH]; [by intros ?%elem_of_nil |].
  intros [Heq | Hin]%elem_of_cons; [subst p |].
  - destruct rest as [|q rest].
    + exists "", "". clear. change (s = s +:+ "").
      induction s as [|c s IHs]; [done | exact (f_equal (String c) IHs)].
    + exists "", (sep +:+ join sep (q :: rest)). done.
  - destruct (IH Hin) as (before & after & Heq).
    destruct rest as [|q rest]; [by apply elem_of_nil in Hin |].
    exists (p +:+ sep +:+ before), after.
    change (join sep (p :: q :: rest)) with (p +:+ sep +:+ join sep (q :: rest)).
    by rewrite Heq, !append_assoc.
Qed.

Lemma difference_empty (X Y : gset string) : X ∖ Y = ∅ ↔ X ⊆ Y.
Proof.
  split.
  - intros H x Hx. destruct (decide (x ∈ Y)) as [|Hn]; [done |].
    assert (x ∈ X ∖ Y) as Hd by (by apply elem_of_difference).
    rewrite H in Hd. by apply elem_of_empty in Hd.
  - intros H. apply set_eq. intros x. rewrite elem_of_difference, elem_of_empty.
    split; [intros [? ?]; auto | done].
Qed.

(** The file stage when a readable file is named. *)
Lemma read_config_file_given fs args path file :
  args !! "config" = Some (VStr path) → path ≠ "" →
  fs !! path = Some (JsonObject file) →
  read_config_file fs args =
    (_ ← assert (bool_decide (dom file ∖ dom args = ∅))
           (Text (join (String (Ascii.ascii_of_nat 10) "")
                       (unknown_line <$> elements (dom file ∖ dom args))));
     Ok (file ∪ args)).
Proof.
  intros Hc Hne Hf. unfold read_config_file. rewrite Hc. simpl.
  destruct (String.eqb_spec path "") as [->|_]; [done |]. simpl. by rewrite Hf.
Qed.

Lemma float_le_gt_exclusive x y : float_le x y = true → float_lt y x = true → False.
Proof.
  destruct x as [| |p|], y as [| |q|]; simpl; try (intros; discriminate).
  rewrite !bool_decide_eq_true. apply Qcle_not_lt.
Qed.

Lemma string_le_gt_exclusive s t : String.leb s t = true → String.ltb t s = true → False.
Proof.
  unfold String.leb, String.ltb. rewrite (String.compare_antisym t s).
  destruct (String.compare s t); simpl; intros; discriminate.
Qed.

Lemma le_gt_exclusive a b : le a b = Ok true → gt a b = Ok true → False.
Proof.
  unfold gt, le, lt.
  destruct a, b; cbn [as_number]; try (intros; discriminate);
    intros Hle%Ok_inj Hlt%Ok_inj;
    eauto using float_le_gt_exclusive, string_le_gt_exclusive.
Qed.

Lemma add_data_config_model d config :
  add_data_config d config !! "model" = config !! "model".
Proof.
  unfold add_data_config. destruct (features d); by rewrite !lookup_insert_ne.
Qed.

(** *** What [main] adds to the configuration, and the model it builds *)

Lemma not_an_option (k : string) :
  bool_decide (k ∈ option_names) = false → k ∉ option_names.
Proof. intros H Hin. by rewrite bool_decide_eq_true_2 in H. Qed.

Lemma add_data_config_option d config k :
  k ∈ option_names → add_data_config d config !! k = config !! k.
Proof.
  intros Hk.
  assert (k ≠ "num_nodes" ∧ k ≠ "time_steps" ∧ k ≠ "device" ∧ k ≠ "y_dim" ∧
          k ≠ "has_features" ∧ k ≠ "feature_dim") as (? & ? & ? & ? & ? & ?).
  { repeat split; intros ->; revert Hk; by apply not_an_option. }
  unfold add_data_config. destruct (features d); by rewrite !lookup_insert_ne.
Qed.

(** X6: the six entries [main] adds are no options: every option keeps the
    value [get_config] gave it, and the keys of the configuration grow by
    exactly those six. *)
Theorem add_data_config_keeps_options d config :
  (∀ k, k ∈ option_names → add_data_config d config !! k = config !! k) ∧
  dom (add_data_config d config) =
    dom config ∪ {["num_nodes"; "time_steps"; "device"; "y_dim";
                   "has_features"; "feature_dim"]} ∧
  add_data_config d config !! "feature_dim" = Some (VInt (default 0 (features d))) ∧
  add_data_config d config !! "has_features" =
    Some (VBool (bool_decide (is_Some (features d)))).
Proof.
  split; [| split; [| split]].
  - intros k. apply add_data_config_option.
  - unfold add_data_config. destruct (features d); rewrite !dom_insert_L; set_solver.
  - unfold add_data_config.
    destruct (features d); simpl; by rewrite lookup_insert_eq.
  - unfold add_data_config.
    destruct (features d); simpl;
      by rewrite lookup_insert_ne, lookup_insert_eq by done.
Qed.

Lemma create_model_known d config :
  names config "model" {["gru"; "gru_node"; "gru_graph"]} →
  ∃ cls, create_model d config = Ok (cls, add_data_config d config).
Proof.
  intros (s & Hs & Hin). rewrite <- dom_MODELS in Hin.
  apply elem_of_dom in Hin as [cls Hcls]. exists cls.
  unfold create_model, getitem. rewrite add_data_config_model, Hs. simpl.
  by rewrite Hcls.
Qed.

(** X7: line 164 finds a class exactly when the ["model"] entry is one of
    the three names, which is what the first assertion of [get_config]
    checks; otherwise it raises [KeyError] with the entry. *)
Theorem create_model_needs_known_model d config :
  ((∃ cls, create_model d config = Ok (cls, add_data_config d config)) ↔
   names config "model" {["gru"; "gru_node"; "gru_graph"]}) ∧
  (∀ v, config !! "model" = Some v →
        ¬ names config "model" {["gru"; "gru_node"; "gru_graph"]} →
        create_model d config = Raise (KeyError v)).
Proof.
  unfold create_model, getitem, names. rewrite add_data_config_model, <- dom_MODELS.
  destruct (config !! "model") as [v|] eqn:Hv; simpl.
  2:{ split; [| by intros ? [=]].
      split; [by intros [? [=]] | by intros (? & [=] & _)]. }
  destruct v as [| | | |s|];
    try (split; [split; [by intros [? [=]] | by intros (? & [=] & _)]
                | by intros ? [= <-] _]).
  simpl. destruct (MODELS !! s) as [cls|] eqn:Hs; simpl.
  - split.
    + split; [| by eauto]. intros _. exists s. split; [done |].
      apply elem_of_dom. eauto.
    + intros ? [= <-] Hn. destruct Hn. exists s. split; [done |].
      apply elem_of_dom. eauto.
  - split.
    + split; [by intros [? [=]] |]. intros (s' & [= <-] & Hin).
      apply elem_of_dom in Hin as [? Hin]. congruence.
    + by intros ? [= <-] _.
Qed.

Section Constants.
Variables OPTIMIZERS LOSSES GNN_LAYERS : gset string.

#[local] Abbreviation get_config := (get_config OPTIMIZERS LOSSES GNN_LAYERS).
#[local] Abbreviation check_names := (check_names OPTIMIZERS LOSSES GNN_LAYERS).

Lemma get_config_Ok cli fs config :
  get_config cli fs = Ok config ↔
  ∃ args, parse_args cli = Ok args ∧ read_config_file fs args = Ok config ∧
          check_names config = Ok tt ∧ check_bounds config = Ok tt.
Proof.
  unfold Config.get_config. rewrite bind_Ok. split.
  - intros (args & Hp & H). apply bind_Ok in H as (c & Hr & H).
    apply bind_Ok in H as ([] & Hn & H). apply bind_Ok in H as ([] & Hb & [= ->]).
    eauto.
  - intros (args & Hp & Hr & Hn & Hb). exists args. split; [done |].
    rewrite Hr. simpl. rewrite Hn. simpl. by rewrite Hb.
Qed.

Lemma get_config_stage cli fs args config :
  parse_args cli = Ok args → read_config_file fs args = Ok config →
  get_config cli fs = (_ ← check_names config; _ ← check_bounds config; Ok config).
Proof. intros Hp Hr. unfold Config.get_config. rewrite Hp. simpl. by rewrite Hr. Qed.

Lemma check_names_Ok config :
  check_names config = Ok tt ↔
  names config "model" {["gru"; "gru_node"; "gru_graph"]} ∧
  names config "optimizer" OPTIMIZERS ∧ names config "loss" LOSSES ∧
  names config "gnn_type" GNN_LAYERS.
Proof.
  unfold Config.check_names, names, getitem. rewrite dom_MODELS. split.
  - intros H.
    destruct (config !! "model") as [m|]; simpl in H; [| discriminate].
    destruct (in_keys m _) eqn:Hm; simpl in H; [| discriminate].
    destruct (config !! "optimizer") as [o|]; simpl in H; [| discriminate].
    destruct (in_keys o _) eqn:Ho; simpl in H; [| discriminate].
    destruct (config !! "loss") as [l|]; simpl in H; [| discriminate].
    destruct (in_keys l _) eqn:Hl; simpl in H; [| discriminate].
    destruct (config !! "gnn_type") as [g|]; simpl in H; [| discriminate].
    apply assert_Ok in H.
    apply in_keys_true in Hm as (? & -> & ?), Ho as (? & -> & ?),
      Hl as (? & -> & ?), H as (? & -> & ?).
    repeat split; eexists; (split; [reflexivity | assumption]).
  - intros ((sm & -> & Hm) & (so & -> & Ho) & (sl & -> & Hl) & (sg & -> & Hg)).
    simpl. rewrite !bool_decide_eq_true_2 by done. done.
Qed.

Lemma check_bounds_Ok config :
  check_bounds config = Ok tt ↔
  (∃ v, config !! "init_points" = Some v ∧ gt v (VInt 0) = Ok true) ∧
  (∃ p b, config !! "plot_pred" = Some p ∧ config !! "batch_size" = Some b ∧
          le p b = Ok true).
Proof.
  unfold check_bounds, getitem. split.
  - intros H.
    destruct (config !! "init_points") as [v|]; simpl in H; [| discriminate].
    destruct (gt v (VInt 0)) as [[]|] eqn:Hv; simpl in H; try discriminate.
    destruct (config !! "plot_pred") as [p|]; simpl in H; [| discriminate].
    destruct (config !! "batch_size") as [b|]; simpl in H; [| discriminate].
    destruct (le p b) as [[]|] eqn:Hp; simpl in H; try discriminate.
    split; [exists v | exists p, b]; auto.
  - intros ((v & -> & Hv) & (p & b & -> & -> & Hp)). simpl.
    rewrite Hv. simpl. by rewrite Hp.
Qed.

Lemma names_decide config key keys : names config key keys ∨ ¬ names config key keys.
Proof.
  unfold names. destruct (config !! key) as [[| | | |s|]|];
    try (right; by intros (? & [=] & _)).
  destruct (decide (s ∈ keys)); [left; eauto |].
  right. intros (? & [= <-] & ?). done.
Qed.

(** C3: once the file stage has produced the merged configuration and its
    numeric bounds hold, [get_config] raises exactly when the model is not
    one of ["gru"], ["gru_node"], ["gru_graph"], or the optimizer, the loss or
    the GNN type is not a key of its mapping. *)
Theorem unknown_names_rejected cli fs args config :
  parse_args cli = Ok args →
  read_config_file fs args = Ok config →
  check_bounds config = Ok tt →
  raises (get_config cli fs) ↔
    ¬ names config "model" {["gru"; "gru_node"; "gru_graph"]} ∨
    ¬ names config "optimizer" OPTIMIZERS ∨
    ¬ names config "loss" LOSSES ∨
    ¬ names config "gnn_type" GNN_LAYERS.
Proof.
  intros Hp Hr Hb. rewrite (get_config_stage _ _ _ _ Hp Hr), Hb.
  pose proof (check_names_Ok config) as Hn.
  destruct (check_names config) as [[]|e]; simpl.
  - split.
    + intros [e [=]].
    + destruct Hn as [Hn _]. specialize (Hn eq_refl). tauto.
  - split; [intros _ | by exists e].
    destruct (names_decide config "model" {["gru"; "gru_node"; "gru_graph"]});
      [| tauto].
    destruct (names_decide config "optimizer" OPTIMIZERS); [| tauto].
    destruct (names_decide config "loss" LOSSES); [| tauto].
    destruct (names_decide config "gnn_type" GNN_LAYERS); [| tauto].
    destruct Hn as [_ Hn]. discriminate Hn. tauto.
Qed.

(** C4: when [--config] names a file holding a JSON object, a key of the
    file that [argparse] does not define makes [get_config] fail with an
    assertion whose message holds, for each such key [k], the text
    ["Unknown option in config file: k"], and so the key itself; when every
    key is defined, the file stage succeeds with the file's entries merged
    in. *)
Theorem unknown_config_keys_rejected cli fs args path file :
  parse_args cli = Ok args →
  args !! "config" = Some (VStr path) → path ≠ "" →
  fs !! path = Some (JsonObject file) →
  (dom file ⊈ option_names →
     ∃ msg, get_config cli fs = Raise (AssertionError (Text msg)) ∧
            ∀ k, k ∈ dom file → k ∉ option_names →
                 mentions msg ("Unknown option in config file: " +:+ k) ∧
                 mentions msg k) ∧
  (dom file ⊆ option_names → read_config_file fs args = Ok (file ∪ args)).
Proof.
  intros Hp Hc Hne Hf. pose proof (parse_args_dom _ _ Hp) as Hdom.
  pose proof (read_config_file_given _ _ _ _ Hc Hne Hf) as Hr.
  rewrite Hdom in Hr. split.
  - intros Hunk. eexists. split.
    + unfold Config.get_config. rewrite Hp. simpl. rewrite Hr.
      rewrite bool_decide_eq_false_2 by (by rewrite difference_empty).
      reflexivity.
    + intros k Hk Hnk.
      assert (mentions
                (join (String (Ascii.ascii_of_nat 10) "")
                      (unknown_line <$> elements (dom file ∖ option_names)))
                ("Unknown option in config file: " +:+ k)) as Hline.
      { apply join_mentions, list_elem_of_fmap.
        exists k. split; [done |]. by apply elem_of_elements, elem_of_difference. }
      split; [exact Hline |].
      destruct Hline as (before & after & Heq).
      exists (before +:+ "Unknown option in config file: "), after.
      rewrite Heq. by rewrite !append_assoc.
  - intros Hsub. rewrite Hr, bool_decide_eq_true_2 by (by rewrite difference_empty).
    done.
Qed.

(** C6: with a config file whose keys are all defined, every key of the
    file holds the file's value in the merged configuration, whatever the
    command line supplied, every other key holds the command-line value
    or, failing that, the default, and a configuration [get_config] returns
    is this merged one. *)
Theorem config_file_overrides_cli cli fs args path file :
  parse_args cli = Ok args →
  args !! "config" = Some (VStr path) → path ≠ "" →
  fs !! path = Some (JsonObject file) →
  dom file ⊆ option_names →
  ∃ merged,
    read_config_file fs args = Ok merged ∧
    (∀ k v, file !! k = Some v → merged !! k = Some v) ∧
    (∀ k, file !! k = None →
          merged !! k = match cli !! k with
                        | Some v => Some v
                        | None => defaults !! k
                        end) ∧
    (∀ final, get_config cli fs = Ok final → final = merged).
Proof.
  intros Hp Hc Hne Hf Hsub. pose proof (parse_args_dom _ _ Hp) as Hdom.
  pose proof (read_config_file_given _ _ _ _ Hc Hne Hf) as Hr.
  rewrite Hdom, bool_decide_eq_true_2 in Hr by (by rewrite difference_empty).
  simpl in Hr.
  exists (file ∪ args). split; [done |]. split; [| split].
  - intros k v Hk. by apply lookup_union_Some_l.
  - intros k Hk. rewrite lookup_union_r by done.
    apply parse_args_Ok in Hp as [_ ->]. rewrite lookup_union.
    by destruct (cli !! k), (defaults !! k).
  - intros final (args' & Hp' & Hr' & _)%get_config_Ok. congruence.
Qed.

(** C9: a configuration that [get_config] returns is the merged one (the
    command line with the file's entries applied) and passes all six
    checks. *)
Theorem returned_config_is_valid cli fs config :
  get_config cli fs = Ok config →
  (∃ args, parse_args cli = Ok args ∧ read_config_file fs args = Ok config) ∧
  names config "model" {["gru"; "gru_node"; "gru_graph"]} ∧
  names config "optimizer" OPTIMIZERS ∧
  names config "loss" LOSSES ∧
  names config "gnn_type" GNN_LAYERS ∧
  (∃ v, config !! "init_points" = Some v ∧ gt v (VInt 0) = Ok true) ∧
  (∃ p b, config !! "plot_pred" = Some p ∧ config !! "batch_size" = Some b ∧
          le p b = Ok true).
Proof.
  intros (args & Hp & Hr & Hn & Hb)%get_config_Ok.
  apply check_names_Ok in Hn as (? & ? & ? & ?).
  apply check_bounds_Ok in Hb as [? ?]. eauto 10.
Qed.

Lemma check_bounds_raises cli fs args config :
  parse_args cli = Ok args → read_config_file fs args = Ok config →
  check_bounds config ≠ Ok tt → raises (get_config cli fs).
Proof.
  intros Hp Hr Hb. rewrite (get_config_stage _ _ _ _ Hp Hr).
  destruct (check_names config) as [[]|e]; simpl; [| by exists e].
  destruct (check_bounds config) as [[]|e]; simpl; [done | by exists e].
Qed.

(** C5: on the merged configuration, [init_points <= 0] makes [get_config]
    raise, and so does [plot_pred > batch_size]; with [init_points > 0] and
    [plot_pred <= batch_size] the two bound checks pass. *)
Theorem numeric_bounds_checked cli fs args config :
  parse_args cli = Ok args →
  read_config_file fs args = Ok config →
  (∀ v, config !! "init_points" = Some v → le v (VInt 0) = Ok true →
        raises (get_config cli fs)) ∧
  (∀ p b, config !! "plot_pred" = Some p → config !! "batch_size" = Some b →
          gt p b = Ok true → raises (get_config cli fs)) ∧
  (∀ v p b, config !! "init_points" = Some v → config !! "plot_pred" = Some p →
            config !! "batch_size" = Some b →
            gt v (VInt 0) = Ok true → le p b = Ok true →
            check_bounds config = Ok tt).
Proof.
  intros Hp Hr. split; [| split].
  - intros v Hv Hle. apply (check_bounds_raises _ _ _ _ Hp Hr).
    intros [(v' & Hv' & Hgt) _]%check_bounds_Ok.
    assert (v' = v) as -> by congruence. eauto using le_gt_exclusive.
  - intros p b Hpp Hbs Hgt. apply (check_bounds_raises _ _ _ _ Hp Hr).
    intros [_ (p' & b' & Hp' & Hb' & Hle)]%check_bounds_Ok.
    assert (p' = p) as -> by congruence. assert (b' = b) as -> by congruence.
    eauto using le_gt_exclusive.
  - intros v p b Hv Hpp Hbs Hgt Hle. apply check_bounds_Ok. eauto 10.
Qed.

(** C7: [MODELS] has exactly the three entries ["gru"], ["gru_node"] and
    ["gru_graph"]; for a configuration [get_config] returned, [main]
    instantiates the one class its ["model"] entry names, and any
    configuration with the same ["model"] entry gets the same class. *)
Theorem model_determined_by_name cli fs config d :
  get_config cli fs = Ok config →
  dom MODELS = {["gru"; "gru_node"; "gru_graph"]} ∧
  size MODELS = 3%nat ∧
  ∃ cls,
    create_model d config = Ok (cls, add_data_config d config) ∧
    (config !! "model" = Some (VStr "gru") ∧ cls = GRUModel ∨
     config !! "model" = Some (VStr "gru_node") ∧ cls = GRUNodeModel ∨
     config !! "model" = Some (VStr "gru_graph") ∧ cls = GRUGraphModel) ∧
    ∀ d' config', config' !! "model" = config !! "model" →
      create_model d' config' = Ok (cls, add_data_config d' config').
Proof.
  intros (args & _ & _ & Hn & _)%get_config_Ok.
  apply check_names_Ok in Hn as [(s & Hs & Hin) _].
  split; [apply dom_MODELS |]. split; [reflexivity |].
  assert (∀ cls, MODELS !! s = Some cls →
    ∀ d' config', config' !! "model" = config !! "model" →
      create_model d' config' = Ok (cls, add_data_config d' config')) as Hsame.
  { intros cls Hcls d' config' Heq. unfold create_model, getitem.
    rewrite add_data_config_model, Heq, Hs. simpl. by rewrite Hcls. }
  apply elem_of_union in Hin as [[->%elem_of_singleton | ->%elem_of_singleton]%elem_of_union
                               | ->%elem_of_singleton].
  - exists GRUModel. split; [by apply Hsame |]. split; [by left |]. by apply Hsame.
  - exists GRUNodeModel. split; [by apply Hsame |]. split; [by right; left |].
    by apply Hsame.
  - exists GRUGraphModel. split; [by apply Hsame |]. split; [by right; right |].
    by apply Hsame.
Qed.

(** *** More on [get_config] *)

Lemma parsed_config_entry cli args :
  parse_args cli = Ok args →
  args !! "config" = match cli !! "config" with
                     | Some v => Some v
                     | None => Some VNone
                     end.
Proof.
  intros [_ ->]%parse_args_Ok. rewrite lookup_union.
  by destruct (cli !! "config").
Qed.

Lemma read_config_file_ext fs fs' args :
  (∀ path, args !! "config" = Some (VStr path) → fs !! path = fs' !! path) →
  read_config_file fs args = read_config_file fs' args.
Proof.
  intros H. unfold read_config_file.
  destruct (args !! "config") as [v|]; [| done].
  destruct (truthy v); [| done].
  destruct v as [| | | |path|]; try done. by rewrite (H path eq_refl).
Qed.

Lemma read_config_file_dom fs args config :
  read_config_file fs args = Ok config → dom config = dom args.
Proof.
  unfold read_config_file.
  destruct (args !! "config") as [v|]; [| done].
  destruct (truthy v); [| by intros [= ->]].
  destruct v as [| | | |path|]; try done.
  destruct (fs !! path) as [[file| |]|]; try done.
  destruct (bool_decide _) eqn:Hunk; simpl; [| done]. intros [= <-].
  apply bool_decide_eq_true, difference_empty in Hunk.
  rewrite dom_union_L. generalize dependent (dom args). intros. set_solver.
Qed.

(** X1: [get_config] reads no file but the one [--config] names: two file
    systems that agree on that path give the same result. *)
Theorem get_config_reads_named_file_only cli fs fs' :
  (∀ path, cli !! "config" = Some (VStr path) → fs !! path = fs' !! path) →
  get_config cli fs = get_config cli fs'.
Proof.
  intros H. unfold Config.get_config.
  destruct (parse_args cli) as [args|e] eqn:Hp; [| done]. simpl.
  rewrite (read_config_file_ext fs fs' args); [done |].
  intros path Hpath. apply H.
  rewrite (parsed_config_entry _ _ Hp) in Hpath.
  by destruct (cli !! "config").
Qed.

(** X2: without [--config], or with an empty one, a configuration that
    [get_config] returns holds for every option the value of the command
    line or else the default, whatever files exist. *)
Theorem get_config_without_file cli fs config :
  cli !! "config" = None ∨ cli !! "config" = Some (VStr "") →
  get_config cli fs = Ok config →
  ∀ k, config !! k = match cli !! k with
                     | Some v => Some v
                     | None => defaults !! k
                     end.
Proof.
  intros Hc (args & Hp & Hr & _)%get_config_Ok k.
  pose proof (parsed_config_entry _ _ Hp) as Hentry.
  apply parse_args_Ok in Hp as [_ ->]. unfold read_config_file in Hr.
  rewrite Hentry in Hr.
  assert (config = cli ∪ defaults) as ->.
  { destruct Hc as [Hc | Hc]; rewrite Hc in Hr; simpl in Hr; congruence. }
  rewrite lookup_union. by destruct (cli !! k), (defaults !! k).
Qed.

(** X3: a configuration that [get_config] returns has the 29 option names
    as its keys, no more and no fewer, with or without a file. *)
Theorem returned_config_keys cli fs config :
  get_config cli fs = Ok config →
  dom config = option_names ∧ size config = 29%nat.
Proof.
  intros (args & Hp & Hr & _)%get_config_Ok.
  assert (dom config = option_names) as Hdom.
  { rewrite (read_config_file_dom _ _ _ Hr). by apply (parse_args_dom cli). }
  split; [done |]. by rewrite <- size_dom, Hdom.
Qed.

(** X4: when [--config] names a path where there is no file, [get_config]
    fails with the assertion ["No config file: <path>"], before it checks
    anything else. *)
Theorem missing_config_file_rejected cli fs args path :
  parse_args cli = Ok args →
  args !! "config" = Some (VStr path) → path ≠ "" →
  fs !! path = None →
  get_config cli fs = Raise (AssertionError (Format "No config file: " (VStr path))).
Proof.
  intros Hp Hc Hne Hf. unfold Config.get_config. rewrite Hp. simpl.
  unfold read_config_file. rewrite Hc. simpl.
  destruct (String.eqb_spec path "") as [-> | _]; [done |]. simpl. by rewrite Hf.
Qed.

(** X5: when the names are known but ["init_points"] holds something that is
    no number (a JSON string or [null]), the bound check does not fail with
    its message: the comparison itself raises [TypeError]. *)
Theorem init_points_must_be_a_number cli fs args config v :
  parse_args cli = Ok args →
  read_config_file fs args = Ok config →
  check_names config = Ok tt →
  config !! "init_points" = Some v → as_number v = None →
  get_config cli fs = Raise TypeError.
Proof.
  intros Hp Hr Hn Hv Hnum. rewrite (get_config_stage _ _ _ _ Hp Hr), Hn. simpl.
  unfold check_bounds, getitem. rewrite Hv. simpl.
  unfold gt, lt. rewrite Hnum. by destruct v.
Qed.

(** X19: for a configuration that [get_config] returned, lines 164-167 raise
    no [KeyError]: after [main] has added its entries, the model class, the
    optimizer and the loss are all found under the names the configuration
    holds, and the learning rate and weight decay are there to be passed. *)
Theorem accepted_config_builds_model_optimizer_loss cli fs config d :
  get_config cli fs = Ok config →
  ∃ cls opt lr l2_reg loss_fn,
    create_model d config = Ok (cls, add_data_config d config) ∧
    create_optimizer_and_loss OPTIMIZERS LOSSES (add_data_config d config) =
      Ok (opt, lr, l2_reg, loss_fn) ∧
    config !! "optimizer" = Some (VStr opt) ∧ opt ∈ OPTIMIZERS ∧
    config !! "loss" = Some (VStr loss_fn) ∧ loss_fn ∈ LOSSES ∧
    config !! "lr" = Some lr ∧ config !! "l2_reg" = Some l2_reg.
Proof.
  intros (args & Hp & Hr & Hn & _)%get_config_Ok.
  assert (dom config = option_names) as Hdom.
  { rewrite (read_config_file_dom _ _ _ Hr). by apply (parse_args_dom cli). }
  apply check_names_Ok in Hn as ((sm & Hm & Hsm) & (so & Ho & Hso) & (sl & Hl & Hsl) & _).
  assert (is_Some (config !! "lr")) as [lr Hlr].
  { apply elem_of_dom. rewrite Hdom. apply (bool_decide_unpack _). by vm_compute. }
  assert (is_Some (config !! "l2_reg")) as [l2 Hl2].
  { apply elem_of_dom. rewrite Hdom. apply (bool_decide_unpack _). by vm_compute. }
  assert (∃ cls, create_model d config = Ok (cls, add_data_config d config)) as [cls Hcls].
  { apply create_model_known. by exists sm. }
  exists cls, so, lr, l2, sl. split; [done |]. split; [| done].
  unfold create_optimizer_and_loss, getitem.
  pose proof (add_data_config_option d config) as Hkeep.
  rewrite !Hkeep by (apply (bool_decide_unpack _); by vm_compute).
  rewrite Ho, Hlr, Hl2, Hl. simpl. by rewrite !bool_decide_eq_true_2.
Qed.

End Constants.

(** *** The theorems at the sample command line *)

#[local] Abbreviation sample_get_config :=
  (get_config Sample.optimizers Sample.losses Sample.gnn_layers Sample.cli Sample.fs).

Lemma sample_parse_args : parse_args Sample.cli = Ok Sample.args.
Proof. vm_compute. reflexivity. Defined.

Lemma sample_read_config_file : read_config_file Sample.fs Sample.args = Ok Sample.config.
Proof. vm_compute. reflexivity. Defined.

Lemma sample_get_config_Ok : sample_get_config = Ok Sample.config.
Proof. vm_compute. reflexivity. Defined.

Lemma sample_keys_known : dom Sample.run_json ⊆ option_names.
Proof. apply (bool_decide_unpack _). vm_compute. exact I. Defined.

Example typo_in_config_file :
  get_config Sample.optimizers Sample.losses Sample.gnn_layers
    {["config" := VStr "typo.json"]} Sample.fs =
  Raise (AssertionError (Text "Unknown option in config file: modle")).
Proof. vm_compute. reflexivity. Qed.

Example missing_config_file :
  get_config Sample.optimizers Sample.losses Sample.gnn_layers
    {["config" := VStr "none.json"]} Sample.fs =
  Raise (AssertionError (Format "No config file: " (VStr "none.json"))).
Proof. vm_compute. reflexivity. Qed.

Example too_many_plots :
  get_config Sample.optimizers Sample.losses Sample.gnn_layers
    {["plot_pred" := VInt 33]} Sample.fs =
  Raise (AssertionError (Text "Can not make more plots than batch size")).
Proof. vm_compute. reflexivity. Qed.

Lemma unknown_names_rejected_witness :
  raises sample_get_config ↔
    ¬ names Sample.config "model" {["gru"; "gru_node"; "gru_graph"]} ∨
    ¬ names Sample.config "optimizer" Sample.optimizers ∨
    ¬ names Sample.config "loss" Sample.losses ∨
    ¬ names Sample.config "gnn_type" Sample.gnn_layers.
Proof.
  apply (unknown_names_rejected Sample.optimizers Sample.losses Sample.gnn_layers
           Sample.cli Sample.fs Sample.args Sample.config).
  - exact sample_parse_args.
  - exact sample_read_config_file.
  - vm_compute. reflexivity.
Defined.

Lemma unknown_config_keys_rejected_witness :
  (∃ msg,
     get_config Sample.optimizers Sample.losses Sample.gnn_layers
       {["config" := VStr "typo.json"]} Sample.fs =
       Raise (AssertionError (Text msg)) ∧
     mentions msg "Unknown option in config file: modle" ∧
     mentions msg "modle") ∧
  read_config_file Sample.fs Sample.args = Ok (Sample.run_json ∪ Sample.args).
Proof.
  split.
  - destruct (unknown_config_keys_rejected Sample.optimizers Sample.losses
                Sample.gnn_layers {["config" := VStr "typo.json"]} Sample.fs
                ({["config" := VStr "typo.json"]} ∪ defaults) "typo.json"
                Sample.typo_json) as [Hreject _].
    + vm_compute. reflexivity.
    + vm_compute. reflexivity.
    + discriminate.
    + vm_compute. reflexivity.
    + destruct Hreject as (msg & Hraise & Hnamed).
      * apply (bool_decide_unpack _). vm_compute. exact I.
      * exists msg. split; [exact Hraise |]. apply (Hnamed "modle").
        -- apply (bool_decide_unpack _). vm_compute. exact I.
        -- apply (bool_decide_unpack _). vm_compute. exact I.
  - apply (unknown_config_keys_rejected Sample.optimizers Sample.losses
             Sample.gnn_layers Sample.cli Sample.fs Sample.args "run.json").
    + exact sample_parse_args.
    + vm_compute. reflexivity.
    + discriminate.
    + vm_compute. reflexivity.
    + exact sample_keys_known.
Defined.

Lemma numeric_bounds_checked_witness :
  (∀ v, Sample.config !! "init_points" = Some v → le v (VInt 0) = Ok true →
        raises sample_get_config) ∧
  (∀ p b, Sample.config !! "plot_pred" = Some p →
          Sample.config !! "batch_size" = Some b →
          gt p b = Ok true → raises sample_get_config) ∧
  (∀ v p b, Sample.config !! "init_points" = Some v →
            Sample.config !! "plot_pred" = Some p →
            Sample.config !! "batch_size" = Some b →
            gt v (VInt 0) = Ok true → le p b = Ok true →
            check_bounds Sample.config = Ok tt).
Proof.
  apply (numeric_bounds_checked Sample.optimizers Sample.losses Sample.gnn_layers
           Sample.cli Sample.fs Sample.args Sample.config).
  - exact sample_parse_args.
  - exact sample_read_config_file.
Defined.

Lemma config_file_overrides_cli_witness :
  ∃ merged,
    read_config_file Sample.fs Sample.args = Ok merged ∧
    (∀ k v, Sample.run_json !! k = Some v → merged !! k = Some v) ∧
    (∀ k, Sample.run_json !! k = None →
          merged !! k = match Sample.cli !! k with
                        | Some v => Some v
                        | None => defaults !! k
                        end) ∧
    (∀ final, sample_get_config = Ok final → final = merged).
Proof.
  apply (config_file_overrides_cli Sample.optimizers Sample.losses
           Sample.gnn_layers Sample.cli Sample.fs Sample.args "run.json").
  - exact sample_parse_args.
  - vm_compute. reflexivity.
  - discriminate.
  - vm_compute. reflexivity.
  - exact sample_keys_known.
Defined.

Lemma returned_config_is_valid_witness :
  (∃ args, parse_args Sample.cli = Ok args ∧
           read_config_file Sample.fs args = Ok Sample.config) ∧
  names Sample.config "model" {["gru"; "gru_node"; "gru_graph"]} ∧
  names Sample.config "optimizer" Sample.optimizers ∧
  names Sample.config "loss" Sample.losses ∧
  names Sample.config "gnn_type" Sample.gnn_layers ∧
  (∃ v, Sample.config !! "init_points" = Some v ∧ gt v (VInt 0) = Ok true) ∧
  (∃ p b, Sample.config !! "plot_pred" = Some p ∧
          Sample.config !! "batch_size" = Some b ∧ le p b = Ok true).
Proof.
  apply (returned_config_is_valid Sample.optimizers Sample.losses
           Sample.gnn_layers Sample.cli Sample.fs Sample.config).
  exact sample_get_config_Ok.
Defined.

Lemma model_determined_by_name_witness :
  dom MODELS = {["gru"; "gru_node"; "gru_graph"]} ∧
  size MODELS = 3%nat ∧
  ∃ cls,
    create_model Sample.data Sample.config =
      Ok (cls, add_data_config Sample.data Sample.config) ∧
    (Sample.config !! "model" = Some (VStr "gru") ∧ cls = GRUModel ∨
     Sample.config !! "model" = Some (VStr "gru_node") ∧ cls = GRUNodeModel ∨
     Sample.config !! "model" = Some (VStr "gru_graph") ∧ cls = GRUGraphModel) ∧
    ∀ d' config', config' !! "model" = Sample.config !! "model" →
      create_model d' config' = Ok (cls, add_data_config d' config').
Proof.
  apply (model_determined_by_name Sample.optimizers Sample.losses
           Sample.gnn_layers Sample.cli Sample.fs Sample.config Sample.data).
  exact sample_get_config_Ok.
Defined.

(** *** The further theorems at the sample inputs *)

Lemma get_config_reads_named_file_only_witness :
  get_config Sample.optimizers Sample.losses Sample.gnn_layers Sample.cli Sample.fs =
  get_config Sample.optimizers Sample.losses Sample.gnn_layers Sample.cli
    Sample.fs_more.
Proof.
  apply get_config_reads_named_file_only.
  intros path Hpath. vm_compute in Hpath. injection Hpath as <-.
  vm_compute. reflexivity.
Defined.

Lemma get_config_without_file_witness :
  (Sample.cli_seed ∪ defaults) !! "seed" = Some (VInt 7) ∧
  (Sample.cli_seed ∪ defaults) !! "lr" = defaults !! "lr".
Proof.
  assert (get_config Sample.optimizers Sample.losses Sample.gnn_layers
            Sample.cli_seed Sample.fs = Ok (Sample.cli_seed ∪ defaults)) as Hget
    by (vm_compute; reflexivity).
  assert (Sample.cli_seed !! "config" = None ∨
          Sample.cli_seed !! "config" = Some (VStr "")) as Hc
    by (left; vm_compute; reflexivity).
  split.
  - exact (get_config_without_file Sample.optimizers Sample.losses
             Sample.gnn_layers Sample.cli_seed Sample.fs _ Hc Hget "seed").
  - exact (get_config_without_file Sample.optimizers Sample.losses
             Sample.gnn_layers Sample.cli_seed Sample.fs _ Hc Hget "lr").
Defined.

Lemma returned_config_keys_witness :
  dom Sample.config = option_names ∧ size Sample.config = 29%nat.
Proof.
  apply (returned_config_keys Sample.optimizers Sample.losses Sample.gnn_layers
           Sample.cli Sample.fs).
  exact sample_get_config_Ok.
Defined.

Lemma missing_config_file_rejected_witness :
  get_config Sample.optimizers Sample.losses Sample.gnn_layers
    Sample.cli_missing Sample.fs =
  Raise (AssertionError (Format "No config file: " (VStr "none.json"))).
Proof.
  apply (missing_config_file_rejected Sample.optimizers Sample.losses
           Sample.gnn_layers Sample.cli_missing Sample.fs
           (Sample.cli_missing ∪ defaults)).
  - vm_compute. reflexivity.
  - vm_compute. reflexivity.
  - discriminate.
  - vm_compute. reflexivity.
Defined.

Lemma init_points_must_be_a_number_witness :
  get_config Sample.optimizers Sample.losses Sample.gnn_layers
    Sample.cli_bad Sample.fs_more = Raise TypeError.
Proof.
  apply (init_points_must_be_a_number Sample.optimizers Sample.losses
           Sample.gnn_layers Sample.cli_bad Sample.fs_more
           (Sample.cli_bad ∪ defaults)
           (Sample.bad_json ∪ (Sample.cli_bad ∪ defaults)) (VStr "five")).
  - vm_compute. reflexivity.
  - vm_compute. reflexivity.
  - vm_compute. reflexivity.
  - vm_compute. reflexivity.
  - reflexivity.
Defined.

Lemma accepted_config_builds_model_optimizer_loss_witness :
  ∃ cls opt lr l2_reg loss_fn,
    create_model Sample.data Sample.config =
      Ok (cls, add_data_config Sample.data Sample.config) ∧
    create_optimizer_and_loss Sample.optimizers Sample.losses
      (add_data_config Sample.data Sample.config) = Ok (opt, lr, l2_reg, loss_fn) ∧
    Sample.config !! "optimizer" = Some (VStr opt) ∧ opt ∈ Sample.optimizers ∧
    Sample.config !! "loss" = Some (VStr loss_fn) ∧ loss_fn ∈ Sample.losses ∧
    Sample.config !! "lr" = Some lr ∧ Sample.config !! "l2_reg" = Some l2_reg.
Proof.
  apply (accepted_config_builds_model_optimizer_loss Sample.optimizers
           Sample.losses Sample.gnn_layers Sample.cli Sample.fs Sample.config
           Sample.data).
  exact sample_get_config_Ok.
Defined.

End ConfigSpec.

(** ** Properties of the training part *)

Module TrainSpec.
Import Py Train.

(** *** The order of floats *)

Lemma float_lt_irrefl a : float_lt a a = false.
Proof.
  destruct a as [| |q|]; simpl; try done.
  apply bool_decide_eq_false. apply Qcle_not_lt, Qcle_refl.
Qed.

Lemma float_lt_trans a b c :
  float_lt a b = true → float_lt b c = true → float_lt a c = true.
Proof.
  destruct a as [| |p|], b as [| |q|], c as [| |r|]; simpl; try done.
  rewrite !bool_decide_eq_true. apply Qclt_trans.
Qed.

Lemma float_le_lt_trans a b c :
  float_le a b = true → float_lt b c = true → float_lt a c = true.
Proof.
  destruct a as [| |p|], b as [| |q|], c as [| |r|]; simpl; try done.
  rewrite !bool_decide_eq_true. apply Qcle_lt_trans.
Qed.

Lemma float_lt_inf a b : float_lt a b = true → float_lt a inf = true.
Proof. destruct a as [| |p|], b as [| |q|]; simpl; done. Qed.

(** Below [np.inf], two floats neither of which is less than the other
    are equal: each is at most the other. *)
Lemma float_lt_total a b :
  float_lt a inf = true → float_lt b inf = true →
  float_lt a b = false → float_lt b a = false →
  float_le a b = true ∧ float_le b a = true.
Proof.
  destruct a as [| |p|], b as [| |q|]; simpl; try done.
  intros _ _ Hab%bool_decide_eq_false Hba%bool_decide_eq_false.
  split; apply bool_decide_eq_true; by apply Qcnot_lt_le.
Qed.

(** *** The patience test on integers *)

Lemma truediv_ge (p a b : Z) :
  0 < b → (Qc_of_Z p ≤ Qc_of_Z a / Qc_of_Z b)%Qc ↔ p * b ≤ a.
Proof.
  intros Hb.
  assert (0 < Qc_of_Z b)%Qc as Hpos by (by rewrite <- Z2Qc_inj_0, <- Z2Qc_inj_lt).
  rewrite (Qcmult_le_mono_pos_r _ _ (Qc_of_Z b) Hpos).
  rewrite (Qcmult_comm (Qc_of_Z a / Qc_of_Z b)), Qcmult_div_r.
  - by rewrite <- Z2Qc_inj_mul, <- Z2Qc_inj_le.
  - intros Hz. rewrite Hz in Hpos. by apply Qclt_not_eq in Hpos.
Qed.

(** *** The logged metrics *)

Lemma log_metrics_val_mse l (m : gmap string float) :
  make_log_metrics l m !! "val_mse" = m !! "mse".
Proof.
  unfold make_log_metrics. rewrite lookup_union.
  change "val_mse" with (String.app "val_" "mse") at 1.
  rewrite (lookup_kmap (String.app "val_")).
  rewrite lookup_singleton_ne by (intros [=]).
  by destruct (m !! "mse").
Qed.

Lemma log_metrics_train_loss l (m : gmap string float) :
  make_log_metrics l m !! "train_loss" = Some l.
Proof.
  unfold make_log_metrics. rewrite lookup_union_r.
  - apply lookup_singleton_eq.
  - apply lookup_kmap_None; [apply _ |]. intros i Hi. discriminate Hi.
Qed.

Section Run.
Context {World Params : Type}.
Variable train_epoch : World → World * float.
Variable val_epoch : World → World * gmap string float.
Variable test_epoch : World → World * gmap string float.
Variable state_dict : World → Params.
Variable load_state_dict : Params → World → World.
Variable plot_prediction : World → nat.
Variable gru_cells : World → nat.
Variable run_dir : string.
Variable PARAM_FILE_NAME : string.
Variable config : settings.

#[local] Abbreviation state := (state World Params).
#[local] Abbreviation run := (@run World Params).
#[local] Abbreviation epoch := (epoch train_epoch val_epoch state_dict config).
#[local] Abbreviation for_epochs := (for_epochs train_epoch val_epoch state_dict config).
#[local] Abbreviation training_loop :=
  (training_loop train_epoch val_epoch state_dict config).
#[local] Abbreviation save_params :=
  (@save_params World Params state_dict run_dir PARAM_FILE_NAME).
#[local] Abbreviation restore_and_plot :=
  (@restore_and_plot World Params state_dict load_state_dict plot_prediction
     run_dir config).
#[local] Abbreviation contents := (contents state_dict).
#[local] Abbreviation update_summary := (@update_summary World Params gru_cells config).
#[local] Abbreviation evaluate_test := (@evaluate_test World Params test_epoch config).
#[local] Abbreviation main_train :=
  (main_train train_epoch val_epoch test_epoch state_dict load_state_dict
     plot_prediction gru_cells run_dir PARAM_FILE_NAME config).
#[local] Abbreviation validated := (validated config).
#[local] Abbreviation world_after := (world_after train_epoch val_epoch config).
#[local] Abbreviation val_mse_at := (val_mse_at train_epoch val_epoch config).
#[local] Abbreviation best_mse := (best_mse train_epoch val_epoch config).
#[local] Abbreviation lowered_best := (lowered_best train_epoch val_epoch config).
#[local] Abbreviation last_lowered := (last_lowered train_epoch val_epoch config).
#[local] Abbreviation patience_spent := (patience_spent train_epoch val_epoch config).
#[local] Abbreviation after := (after train_epoch val_epoch state_dict config).
#[local] Abbreviation emits P m := (@emits World Params _ P m).
#[local] Abbreviation settles m := (@settles World Params _ m).
#[local] Abbreviation some_finite_validation :=
  (some_finite_validation train_epoch val_epoch config).

(** *** What a computation adds to the trace *)

Lemma emits_ret {A} P (a : A) : emits P (mret a : run A).
Proof. intros st. by exists []. Qed.

Lemma emits_lift {A} P (r : result A) : emits P (lift r).
Proof. intros st. by exists []. Qed.

Lemma emits_get {A} P (f : state → A) : emits P (get f).
Proof. intros st. by exists []. Qed.

Lemma emits_emit P ev : P ev → emits P (emit ev).
Proof. intros H st. exists [ev]. split; [done | by constructor]. Qed.

Lemma emits_call {A} P (f : World → World * A) ev : P ev → emits P (call f ev).
Proof.
  intros H st. exists [ev]. unfold call. destruct (f (world st)).
  split; [done | by constructor].
Qed.

Lemma emits_set_world P w : emits P (@set_world World Params w).
Proof. intros st. by exists []. Qed.

Lemma emits_set_best_val_metrics P m : emits P (@set_best_val_metrics World Params m).
Proof. intros st. by exists []. Qed.

Lemma emits_record_best P v m e : emits P (record_best state_dict v m e).
Proof. intros st. by exists []. Qed.

Lemma emits_bind {A B} P (m : run A) (f : A → run B) :
  emits P m → (∀ a, emits P (f a)) → emits P (m ≫= f).
Proof.
  intros Hm Hf st. destruct (Hm st) as (new1 & Ht1 & HP1).
  unfold mbind, run_bind. destruct (m st) as [st1 [a|e]]; simpl in *.
  - destruct (Hf a st1) as (new2 & Ht2 & HP2). exists (new2 ++ new1).
    rewrite Ht2, Ht1, app_assoc. split; [done | by apply Forall_app].
  - by exists new1.
Qed.

Lemma emits_for_each {A} P (body : A → run unit) xs :
  (∀ x, emits P (body x)) → emits P (for_each body xs).
Proof.
  intros Hb. induction xs as [|x xs IH]; simpl.
  - apply emits_ret.
  - apply emits_bind; [apply Hb | intros _; apply IH].
Qed.

Ltac emits_step :=
  first
    [ apply emits_ret | apply emits_lift | apply emits_get
    | apply emits_emit; exact I | apply emits_call; exact I
    | apply emits_set_world | apply emits_set_best_val_metrics
    | apply emits_record_best
    | apply emits_for_each; intros ?
    | apply emits_bind; [| intros ?]
    | match goal with
      | |- emits _ (if ?c then _ else _) => destruct c
      | |- emits _ (match ?x with _ => _ end) => destruct x
      end ].

Lemma emits_epoch e : emits loop_event (epoch e).
Proof. unfold Train.epoch. repeat emits_step. Qed.

Lemma emits_for_epochs es : emits loop_event (for_epochs es).
Proof.
  induction es as [|e es IH]; simpl; [apply emits_ret |].
  apply emits_bind; [apply emits_epoch |]. intros []; [apply IH | apply emits_ret].
Qed.

Lemma emits_restore_and_plot : emits report_event restore_and_plot.
Proof. unfold Train.restore_and_plot. repeat emits_step. Qed.

Lemma emits_update_summary : emits report_event update_summary.
Proof. unfold Train.update_summary. repeat emits_step. Qed.

Lemma emits_evaluate_test : emits report_event evaluate_test.
Proof. unfold Train.evaluate_test. repeat emits_step. Qed.

Ltac fields :=
  cbn [world best_val_loss best_val_metrics best_val_epoch best_params trace fst snd].

(** *** The loop follows the history *)

Lemma after_init w0 : after w0 0 (init w0).
Proof. repeat split. Qed.

(** The history by itself: the best MSE bounds every validation so far, and
    the epoch that set it is the earliest one with that MSE. *)
Lemma best_mse_step w0 n :
  best_mse w0 (S n) =
    if lowered_best w0 (S n) then default NaN (val_mse_at w0 (S n))
    else best_mse w0 n.
Proof.
  cbn [Train.best_mse]. unfold Train.lowered_best. cbn [pred].
  destruct (val_mse_at w0 (S n)) as [v|]; [| done].
  by destruct (validated _ && float_lt _ _).
Qed.

Lemma lowered_best_true w0 n :
  lowered_best w0 (S n) = true →
  ∃ v, val_mse_at w0 (S n) = Some v ∧ validated (Z.of_nat (S n)) = true ∧
       float_lt v (best_mse w0 n) = true.
Proof.
  unfold Train.lowered_best. cbn [pred].
  destruct (val_mse_at w0 (S n)) as [v|]; [| done].
  intros [? ?]%andb_true_iff. eauto.
Qed.

Lemma lowered_best_false w0 n v :
  lowered_best w0 (S n) = false →
  val_mse_at w0 (S n) = Some v → validated (Z.of_nat (S n)) = true →
  float_lt v (best_mse w0 n) = false.
Proof.
  unfold Train.lowered_best. cbn [pred]. intros H Hu Hv.
  by rewrite Hu, Hv in H.
Qed.

Lemma best_mse_bound w0 n j u :
  (1 ≤ j ≤ n)%nat → validated (Z.of_nat j) = true → val_mse_at w0 j = Some u →
  float_lt u (best_mse w0 n) = false.
Proof.
  induction n as [|n IH]; [lia |]. intros Hj Hval Hu.
  rewrite best_mse_step. destruct (lowered_best w0 (S n)) eqn:Hlow.
  - apply lowered_best_true in Hlow as (v & Hv & _ & Hlt). rewrite Hv. simpl.
    destruct (decide (j = S n)) as [-> | Hne].
    + assert (u = v) as -> by congruence. apply float_lt_irrefl.
    + destruct (float_lt u v) eqn:Huv; [| done].
      pose proof (float_lt_trans _ _ _ Huv Hlt) as Hcontra.
      rewrite IH in Hcontra; [done | lia | done..].
  - destruct (decide (j = S n)) as [-> | Hne].
    + eauto using lowered_best_false.
    + apply IH; [lia | done..].
Qed.

Lemma last_lowered_none w0 n : last_lowered w0 n = -1 → best_mse w0 n = inf.
Proof.
  induction n as [|n IH]; [done |]. rewrite best_mse_step. cbn [Train.last_lowered].
  destruct (lowered_best w0 (S n)); [lia | done].
Qed.

Lemma last_lowered_some w0 n :
  last_lowered w0 n ≠ -1 →
  ∃ k v, last_lowered w0 n = Z.of_nat k ∧ (1 ≤ k ≤ n)%nat ∧
         validated (Z.of_nat k) = true ∧ val_mse_at w0 k = Some v ∧
         best_mse w0 n = v ∧ float_lt v inf = true ∧
         ∀ j u, (1 ≤ j < k)%nat → validated (Z.of_nat j) = true →
                val_mse_at w0 j = Some u → float_le u v = false.
Proof.
  induction n as [|n IH]; [done |]. rewrite best_mse_step. cbn [Train.last_lowered].
  destruct (lowered_best w0 (S n)) eqn:Hlow.
  - intros _. apply lowered_best_true in Hlow as (v & Hv & Hval & Hlt).
    exists (S n), v. rewrite Hv. repeat split; try done; try lia.
    + eauto using float_lt_inf.
    + intros j u Hj Hjv Hu. destruct (float_le u v) eqn:Hle; [| done].
      pose proof (float_le_lt_trans _ _ _ Hle Hlt) as Hcontra.
      rewrite (best_mse_bound w0 n j u) in Hcontra; [done | lia | done..].
  - intros Hne. destruct (IH Hne) as (k & v & Hk & Hr & Hrest).
    exists k, v. split; [done |]. split; [lia | done].
Qed.

Lemma finite_validation_iff w0 n :
  some_finite_validation w0 n ↔ last_lowered w0 n ≠ -1.
Proof.
  split.
  - intros (k & v & Hk & Hval & Hv & Hlt) Hnone.
    pose proof (best_mse_bound w0 n k v Hk Hval Hv) as Hb.
    rewrite (last_lowered_none _ _ Hnone) in Hb. congruence.
  - intros Hne. destruct (last_lowered_some _ _ Hne) as (k & v & _ & ? & ? & ? & _ & ? & _).
    by exists k, v.
Qed.

Lemma seqZ_to_nat m len : seqZ m len = seqZ m (Z.of_nat (Z.to_nat len)).
Proof. unfold seqZ. by rewrite Nat2Z.id. Qed.

Lemma patience_spent_zero_interval w0 n :
  val_interval config = 0 → patience_spent w0 n = false.
Proof. intros H. unfold Train.patience_spent, Train.validated. by rewrite H. Qed.

Lemma loop_no_epochs st : epochs config ≤ 0 → training_loop st = (st, Ok Exhausted).
Proof.
  intros H. unfold Train.training_loop, epoch_range. by rewrite seqZ_nil.
Qed.

Lemma loop_zero_interval st :
  val_interval config = 0 → 1 ≤ epochs config →
  (training_loop st).2 = Raise ZeroDivisionError.
Proof.
  intros Hz He. unfold Train.training_loop, epoch_range.
  rewrite seqZ_cons by lia. cbn [Train.for_epochs].
  unfold mbind, run_bind, Train.epoch, mbind, run_bind, call, lift, py_mod.
  destruct (train_epoch (world st)). by rewrite Hz.
Qed.

(** *** After the loop *)

Lemma checkpoints_app (tr1 tr2 : list (event Params)) :
  checkpoints (tr1 ++ tr2) = checkpoints tr1 ++ checkpoints tr2.
Proof.
  induction tr1 as [|ev tr1 IH]; [done |]. destruct ev; simpl; by rewrite ?IH.
Qed.

Lemma checkpoints_loop (tr : list (event Params)) :
  Forall loop_event tr → checkpoints tr = [].
Proof. induction 1 as [|ev tr Hev _ IH]; [done |]. by destruct ev. Qed.

Lemma checkpoints_report (tr : list (event Params)) :
  Forall report_event tr → checkpoints tr = [].
Proof. induction 1 as [|ev tr Hev _ IH]; [done |]. by destruct ev. Qed.

Lemma loop_trace w0 : Forall loop_event (trace (training_loop (init w0)).1).
Proof.
  destruct (emits_for_epochs (epoch_range config) (init w0)) as (new & Ht & HP).
  unfold Train.training_loop. rewrite Ht. simpl. by rewrite app_nil_r.
Qed.

Lemma save_params_eq st :
  save_params st =
    ({| world := world st; best_val_loss := best_val_loss st;
        best_val_metrics := best_val_metrics st;
        best_val_epoch := best_val_epoch st; best_params := best_params st;
        trace := TorchSave (contents (world st) <$> best_params st)
                   (path_join run_dir PARAM_FILE_NAME) :: trace st |}, Ok tt).
Proof. reflexivity. Qed.

Lemma main_train_loop_raises st0 st e :
  training_loop st0 = (st, Raise e) → main_train st0 = (st, Raise e).
Proof.
  intros H. unfold Train.main_train. unfold mbind at 1, run_bind at 1.
  by rewrite H.
Qed.

Lemma main_train_after_loop st0 st x :
  training_loop st0 = (st, Ok x) →
  ∃ later,
    trace (main_train st0).1 =
      later ++ TorchSave (contents (world st) <$> best_params st)
                 (path_join run_dir PARAM_FILE_NAME) :: trace st ∧
    Forall report_event later.
Proof.
  intros H. unfold Train.main_train. unfold mbind at 1, run_bind at 1. rewrite H.
  unfold mbind at 1, run_bind at 1. rewrite save_params_eq.
  match goal with |- context [trace (?m ?s).1] =>
    assert (emits report_event m) as Hm
  end.
  { apply emits_bind; [apply emits_restore_and_plot | intros _].
    apply emits_bind; [apply emits_update_summary | intros _].
    apply emits_evaluate_test. }
  apply Hm.
Qed.

Lemma settles_ret {A} (a : A) : settles (mret a : run A).
Proof. intros st. eauto. Qed.

Lemma settles_get {A} (f : state → A) : settles (get f).
Proof. intros st. cbn. eauto. Qed.

Lemma settles_emit ev : settles (emit ev).
Proof. intros st. cbn. eauto. Qed.

Lemma settles_call {A} (f : World → World * A) ev : settles (call f ev).
Proof. intros st. unfold call. destruct (f (world st)). cbn. eauto. Qed.

Lemma settles_set_world w : settles (@set_world World Params w).
Proof. intros st. cbn. eauto. Qed.

Lemma settles_bind {A B} (m : run A) (f : A → run B) :
  settles m → (∀ a, settles (f a)) → settles (m ≫= f).
Proof.
  intros Hm Hf st. destruct (Hm st) as ([a Ha] & Hm1 & Hm2).
  unfold mbind, run_bind. destruct (m st) as [st1 r]. simpl in *. subst r.
  destruct (Hf a st1) as (Hr & Hf1 & Hf2). rewrite Hf1, Hf2. eauto.
Qed.

Lemma settles_for_each {A} (body : A → run unit) xs :
  (∀ x, settles (body x)) → settles (for_each body xs).
Proof.
  intros Hb. induction xs as [|x xs IH]; simpl.
  - apply settles_ret.
  - apply settles_bind; [apply Hb | intros _; apply IH].
Qed.

Lemma settles_run (m : run unit) st :
  settles m →
  ∃ st', m st = (st', Ok tt) ∧ best_val_metrics st' = best_val_metrics st ∧
         best_params st' = best_params st.
Proof.
  intros H. destruct (H st) as ([[] Ha] & Hb & Hc).
  destruct (m st) as [st' r]. simpl in *. subst r. eauto.
Qed.

Ltac settles_step :=
  first
    [ apply settles_ret | apply settles_get | apply settles_emit
    | apply settles_call | apply settles_set_world
    | apply settles_for_each; intros ?
    | apply settles_bind; [| intros ?]
    | match goal with
      | |- settles (if ?c then _ else _) => destruct c
      end ].

Lemma restore_and_plot_Some st r :
  best_params st = Some r →
  ∃ st', restore_and_plot st = (st', Ok tt) ∧
         best_val_metrics st' = best_val_metrics st.
Proof.
  intros Hp. unfold Train.restore_and_plot.
  unfold mbind at 1, run_bind at 1, get at 1. rewrite Hp.
  match goal with |- context [?m st] => assert (settles m) as Hm end.
  { repeat settles_step. }
  destruct (settles_run _ st Hm) as (st' & Hrun & Hb & _). eauto.
Qed.

Lemma update_summary_Some st m :
  best_val_metrics st = Some m → is_Some (m !! "train_loss") →
  ∃ st', update_summary st = (st', Ok tt).
Proof.
  intros Hm [l Hl]. unfold Train.update_summary.
  unfold mbind at 1, run_bind at 1, get at 1. rewrite Hm.
  unfold mbind at 1, run_bind at 1, lift at 1, getitem. rewrite Hl.
  unfold mbind at 1, run_bind at 1. cbn [set_best_val_metrics].
  match goal with |- ∃ st', ?k ?s = _ =>
    destruct (settles_run k s) as (st' & Hrun & _); [| by exists st']
  end.
  repeat settles_step.
Qed.

Lemma evaluate_test_Ok st : (evaluate_test st).2 = Ok tt.
Proof.
  assert (settles evaluate_test) as H.
  { unfold Train.evaluate_test. repeat settles_step. }
  by destruct (H st) as ([[] Ha] & _).
Qed.

(** C8, amended: when the training loop finishes, [main] calls [torch.save]
    exactly once, on [wandb.run.dir] joined with [constants.PARAM_FILE_NAME],
    after every call of the loop and before any call of the reporting that
    follows; a loop that raises ends [main] before anything is saved. *)
Theorem checkpoint_written_once w0 :
  let loop := training_loop (init w0) in
  let final := main_train (init w0) in
  match loop.2 with
  | Ok _ =>
      (∃ later,
         trace final.1 =
           later ++ TorchSave (contents (world loop.1) <$> best_params loop.1)
                      (path_join run_dir PARAM_FILE_NAME) :: trace loop.1 ∧
         Forall report_event later ∧ Forall loop_event (trace loop.1)) ∧
      checkpoints (trace final.1) = [path_join run_dir PARAM_FILE_NAME]
  | Raise e => final = (loop.1, Raise e) ∧ checkpoints (trace final.1) = []
  end.
Proof.
  intros loop final. pose proof (loop_trace w0) as Hloop. fold loop in Hloop.
  subst final. destruct loop as [st [x|e]] eqn:Hrun; cbn [fst snd] in *.
  - destruct (main_train_after_loop _ _ _ Hrun) as (later & Ht & Hlater).
    split; [by exists later |].
    rewrite Ht, checkpoints_app. cbn [checkpoints].
    by rewrite (checkpoints_report _ Hlater), (checkpoints_loop _ Hloop).
  - rewrite (main_train_loop_raises _ _ _ Hrun). split; [done |].
    by apply checkpoints_loop.
Qed.

(** *** The logged metrics, entry by entry *)

(** X8: the logged dictionary holds every validation metric under its
    [val_] name and the training loss under ["train_loss"], and nothing
    else: no metric is lost or overwritten. *)
Theorem log_metrics_entries l (m : gmap string float) :
  (∀ k, make_log_metrics l m !! ("val_" +:+ k) = m !! k) ∧
  make_log_metrics l m !! "train_loss" = Some l ∧
  (∀ key v, make_log_metrics l m !! key = Some v →
            key = "train_loss" ∧ v = l ∨
            ∃ k, key = "val_" +:+ k ∧ m !! k = Some v) ∧
  size (make_log_metrics l m) = S (size m).
Proof.
  split; [| split; [apply log_metrics_train_loss | split]].
  - intros k. unfold make_log_metrics. rewrite lookup_union.
    rewrite (lookup_kmap (String.app "val_")), lookup_singleton_ne.
    + by destruct (m !! k).
    + intros Heq. discriminate Heq.
  - intros key v. unfold make_log_metrics.
    intros [Hval | [_ Htrain]]%lookup_union_Some_raw.
    + right. apply (lookup_kmap_Some (String.app "val_")) in Hval as (k & -> & Hk).
      by exists k.
    + left. by apply lookup_singleton_Some in Htrain as [<- <-].
  - unfold make_log_metrics. rewrite map_size_disj_union.
    + rewrite map_size_singleton, <- !length_map_to_list.
      rewrite (map_to_list_kmap (String.app "val_")), length_fmap. lia.
    + apply map_disjoint_singleton_r, lookup_kmap_None; [apply _ |].
      intros i Hi. discriminate Hi.
Qed.

(** *** What the loop keeps, however it ends *)

Lemma for_epochs_invariant (I : state → Prop) :
  (∀ e st, I st → I (epoch e st).1) →
  ∀ es st, I st → I (for_epochs es st).1.
Proof.
  intros Hstep es. induction es as [|e es IH]; intros st Hst; [done |].
  cbn [Train.for_epochs]. unfold mbind, run_bind.
  specialize (Hstep e st Hst).
  destruct (epoch e st) as [st1 [[]|err]]; cbn [fst] in *; auto.
Qed.

Lemma recorded_later (st st' : state) :
  best_params st' = best_params st →
  best_val_metrics st' = best_val_metrics st →
  best_val_epoch st' = best_val_epoch st →
  best_val_loss st' = best_val_loss st →
  (∀ ev, ev ∈ trace st → ev ∈ trace st') →
  recorded st → recorded st'.
Proof.
  unfold recorded. intros -> -> -> -> Htrace.
  destruct (best_params st) as [[|p]|], (best_val_metrics st) as [m|]; try done.
  intros (? & ? & ? & ?). auto.
Qed.

Lemma epoch_recorded e st : recorded st → recorded (epoch e st).1.
Proof.
  intros Hst. unfold Train.epoch, mbind, run_bind, call, lift, py_mod, get, emit.
  destruct (train_epoch (world st)) as [w1 l].
  destruct (val_interval config =? 0) eqn:Hz; fields.
  { apply (recorded_later st); try done. intros ev Hev. by right. }
  destruct (e `mod` val_interval config =? 0); fields.
  2:{ apply (recorded_later st); try done. intros ev Hev. by right. }
  destruct (val_epoch w1) as [w2 m]. fields. unfold getitem.
  destruct (make_log_metrics l m !! "val_mse") as [v|] eqn:Hv; fields.
  2:{ apply (recorded_later st); try done. intros ev Hev. by do 2 right. }
  unfold py_truediv. rewrite Hz.
  destruct (float_lt v (best_val_loss st)) eqn:Hlt.
  - assert (recorded
              {| world := w2; best_val_loss := v;
                 best_val_metrics := Some (make_log_metrics l m);
                 best_val_epoch := e;
                 best_params := Some (deepcopy state_dict w2 model_state_dict);
                 trace := WandbLog (make_log_metrics l m) e
                          :: PrintEpoch e l v :: ValEpoch e :: TrainEpoch e
                          :: trace st |}) as Hnew.
    { unfold recorded. cbn. rewrite log_metrics_train_loss.
      repeat split; eauto using float_lt_inf. by left. }
    cbn [record_best mret run_ret]. fields.
    destruct (bool_decide _).
    + cbn [mret run_ret fst]. fields.
      eapply recorded_later; cycle 5; [exact Hnew | reflexivity.. |].
      intros ev Hev. by right.
    + exact Hnew.
  - cbn [mret run_ret]. fields. destruct (bool_decide _).
    + apply (recorded_later st); [reflexivity.. | | done].
      intros ev Hev. by do 5 right.
    + apply (recorded_later st); [reflexivity.. | | done].
      intros ev Hev. by do 4 right.
Qed.

(** X9: however the loop ends, by exhausting the epochs, by [break] or by an
    exception, the best parameters, metrics, epoch and loss are either all
    at their initial values or all set; when set, the metrics are a
    dictionary that [wandb.log] received at step [best_val_epoch], their
    ["val_mse"] is [best_val_loss] and lies below [np.inf], they still hold
    ["train_loss"], and the parameters are a copy, not the live state
    dict. *)
Theorem loop_keeps_best_consistent w0 : recorded (training_loop (init w0)).1.
Proof.
  unfold Train.training_loop.
  apply (for_epochs_invariant recorded); [apply epoch_recorded |]. by split.
Qed.

(** *** The calls of a loop that finishes *)

Lemma epoch_calls e st st' f :
  epoch e st = (st', Ok f) →
  train_calls (trace st') = e :: train_calls (trace st) ∧
  log_steps (trace st') =
    (if validated e then [e] else []) ++ log_steps (trace st).
Proof.
  unfold Train.epoch, Train.validated, mbind, run_bind, call, lift, py_mod, get, emit.
  destruct (train_epoch (world st)) as [w1 l].
  destruct (val_interval config =? 0) eqn:Hz; fields; [intros [=] |].
  destruct (e `mod` val_interval config =? 0); fields.
  2:{ intros [= <- <-]. by cbn. }
  destruct (val_epoch w1) as [w2 m]. fields. unfold getitem.
  destruct (make_log_metrics l m !! "val_mse") as [v|]; fields; [| intros [=]].
  unfold py_truediv. rewrite Hz.
  destruct (float_lt v (best_val_loss st));
    cbn [record_best mret run_ret]; fields;
    destruct (bool_decide _); cbn [mret run_ret]; fields;
    intros [= <- <-]; by cbn.
Qed.

Lemma for_epochs_calls es : ∀ st st' x,
  for_epochs es st = (st', Ok x) →
  ∃ done,
    match x with
    | Exhausted => done = es
    | Broke e => ∃ pre post, es = pre ++ e :: post ∧ done = pre ++ [e]
    end ∧
    train_calls (trace st') = rev done ++ train_calls (trace st) ∧
    log_steps (trace st') =
      rev (filter (λ e, validated e = true) done) ++ log_steps (trace st).
Proof.
  induction es as [|e es IH]; intros st st' x.
  - intros [= <- <-]. by exists [].
  - cbn [Train.for_epochs]. unfold mbind at 1, run_bind at 1.
    destruct (epoch e st) as [st1 [f|err]] eqn:He; [| intros [=]].
    destruct (epoch_calls _ _ _ _ He) as [Htrain Hlog].
    assert (rev (filter (λ e, validated e = true) [e]) =
            if validated e then [e] else []) as Hone.
    { destruct (validated e) eqn:Hv.
      - by rewrite filter_cons_True.
      - rewrite filter_cons_False; [done | by rewrite Hv]. }
    destruct f.
    + intros Hrest. destruct (IH _ _ _ Hrest) as (done & Hx & Ht & Hl).
      exists (e :: done). split; [| split].
      * destruct x as [|e']; [by rewrite Hx |].
        destruct Hx as (pre & post & -> & ->). by exists (e :: pre), post.
      * rewrite Ht, Htrain. cbn [rev]. by rewrite <- app_assoc.
      * rewrite Hl, Hlog, <- Hone.
        change (e :: done) with ([e] ++ done).
        by rewrite list.filter_app, rev_app_distr, <- app_assoc.
    + intros [= <- <-]. exists [e]. split; [by exists [], es |].
      split; [by rewrite Htrain | by rewrite Hlog, Hone].
Qed.

Lemma seqZ_prefix n pre e post :
  seqZ 1 n = pre ++ e :: post →
  pre ++ [e] = seqZ 1 (Z.of_nat (Z.to_nat e)) ∧ 1 ≤ e ≤ n.
Proof.
  intros Heq.
  assert (seqZ 1 n !! length pre = Some e) as Hlook.
  { rewrite Heq. by apply list_lookup_middle. }
  apply lookup_seqZ in Hlook as [He Hlt].
  assert (pre = seqZ 1 (Z.of_nat (length pre))) as Hpre.
  { replace n with (Z.of_nat (length pre) + (n - Z.of_nat (length pre))) in Heq by lia.
    rewrite seqZ_app in Heq by lia.
    apply app_inj_1 in Heq as [Heq _]; [done |].
    by rewrite length_seqZ, Nat2Z.id. }
  split; [| lia].
  replace (Z.to_nat e) with (S (length pre)) by lia.
  rewrite seqZ_S, <- Hpre. do 2 f_equal. lia.
Qed.

(** X10: in a loop that finishes, [train.train_epoch] was called once for
    each epoch [1, 2, ...] up to the last one run, in this order, and
    [wandb.log] was called exactly for the validated ones among them, with
    the epoch as its step. *)
Theorem finished_loop_calls w0 st x :
  training_loop (init w0) = (st, Ok x) →
  rev (train_calls (trace st)) = seqZ 1 (Z.of_nat (epochs_run config x)) ∧
  rev (log_steps (trace st)) =
    filter (λ e, validated e = true) (seqZ 1 (Z.of_nat (epochs_run config x))).
Proof.
  intros Hrun. unfold Train.training_loop, epoch_range in Hrun.
  destruct (for_epochs_calls _ _ _ _ Hrun) as (done & Hx & Ht & Hl).
  cbn [init trace train_calls log_steps] in Ht, Hl.
  rewrite app_nil_r in Ht, Hl. rewrite Ht, Hl, !rev_involutive.
  assert (done = seqZ 1 (Z.of_nat (epochs_run config x))) as ->; [| done].
  destruct x as [|e]; cbn [epochs_run].
  - rewrite Hx. apply seqZ_to_nat.
  - destruct Hx as (pre & post & Heq & ->). by apply seqZ_prefix in Heq as [? _].
Qed.

(** *** Runs that validate nothing, and runs that cannot validate *)

Lemma epoch_unvalidated e st :
  val_interval config ≠ 0 → validated e = false →
  epoch e st =
    ({| world := (train_epoch (world st)).1; best_val_loss := best_val_loss st;
        best_val_metrics := best_val_metrics st;
        best_val_epoch := best_val_epoch st; best_params := best_params st;
        trace := TrainEpoch e :: trace st |}, Ok Continue).
Proof.
  intros Hz%Z.eqb_neq. unfold Train.validated. rewrite Hz. cbn [negb andb].
  intros Hmod.
  unfold Train.epoch, mbind, run_bind, call, lift, py_mod, get, emit.
  destruct (train_epoch (world st)) as [w1 l]. rewrite Hz. fields.
  by rewrite Hmod.
Qed.

Lemma for_epochs_unvalidated es : ∀ st,
  val_interval config ≠ 0 → Forall (λ e, validated e = false) es →
  ∃ st', for_epochs es st = (st', Ok Exhausted) ∧
         best_params st' = best_params st ∧
         best_val_metrics st' = best_val_metrics st ∧
         train_calls (trace st') = rev es ++ train_calls (trace st) ∧
         checkpoints (trace st') = checkpoints (trace st) ∧
         log_steps (trace st') = log_steps (trace st).
Proof.
  induction es as [|e es IH]; intros st Hz Hes.
  - by exists st.
  - inversion Hes as [|? ? He Hes']; subst. clear Hes. rename Hes' into Hes.
    cbn [Train.for_epochs]. unfold mbind at 1, run_bind at 1.
    rewrite (epoch_unvalidated e st Hz He).
    destruct (IH {| world := (train_epoch (world st)).1;
                    best_val_loss := best_val_loss st;
                    best_val_metrics := best_val_metrics st;
                    best_val_epoch := best_val_epoch st;
                    best_params := best_params st;
                    trace := TrainEpoch e :: trace st |} Hz Hes)
      as (st' & -> & Hp & Hm & Ht & Hc & Hl).
    exists st'. split; [done |]. rewrite Hp, Hm, Ht, Hc, Hl.
    cbn. by rewrite <- app_assoc.
Qed.

Lemma for_epochs_app es1 es2 st :
  for_epochs (es1 ++ es2) st =
    match for_epochs es1 st with
    | (st', Ok Exhausted) => for_epochs es2 st'
    | r => r
    end.
Proof.
  revert st. induction es1 as [|e es1 IH]; intros st; [done |].
  cbn [app Train.for_epochs]. unfold mbind, run_bind.
  destruct (epoch e st) as [st1 [[]|err]]; [apply IH | done..].
Qed.

Lemma unvalidated_below_interval e :
  0 < val_interval config → 1 ≤ e < val_interval config → validated e = false.
Proof.
  intros Hpos He. unfold Train.validated.
  rewrite Z.mod_small by lia. apply andb_false_iff. right. apply Z.eqb_neq. lia.
Qed.

(** X11: with fewer epochs than [val_interval], the loop trains every epoch
    and validates none; the best parameters and metrics stay [None],
    [torch.save] writes [None], and [main] then fails with [TypeError] on
    [load_state_dict]. *)
Theorem too_few_epochs_to_validate w0 :
  0 < val_interval config → epochs config < val_interval config →
  ∃ st,
    training_loop (init w0) = (st, Ok Exhausted) ∧
    best_params st = None ∧ best_val_metrics st = None ∧
    rev (train_calls (trace st)) = seqZ 1 (epochs config) ∧
    log_steps (trace st) = [] ∧
    (main_train (init w0)).2 = Raise TypeError ∧
    trace (main_train (init w0)).1 =
      TorchSave None (path_join run_dir PARAM_FILE_NAME) :: trace st.
Proof.
  intros Hpos Hfew.
  destruct (for_epochs_unvalidated (epoch_range config) (init w0)) as
    (st & Hrun & Hp & Hm & Ht & _ & Hl).
  { lia. }
  { apply Forall_seqZ. intros e He. apply unvalidated_below_interval; lia. }
  exists st. split; [exact Hrun |]. cbn in Hp, Hm, Ht, Hl.
  rewrite app_nil_r in Ht. rewrite Ht, rev_involutive.
  repeat split; try done.
  - unfold Train.main_train, mbind, run_bind.
    unfold Train.training_loop. rewrite Hrun, save_params_eq.
    unfold Train.restore_and_plot, mbind, run_bind, get. cbn. by rewrite Hp.
  - unfold Train.main_train, mbind, run_bind.
    unfold Train.training_loop. rewrite Hrun, save_params_eq.
    unfold Train.restore_and_plot, mbind, run_bind, get. cbn. by rewrite Hp.
Qed.

(** X12: with [val_interval = 0] and at least one epoch, [main] trains the
    first epoch, raises [ZeroDivisionError] on [epoch_i % 0], and has
    validated, logged and saved nothing. *)
Theorem zero_val_interval_raises w0 :
  val_interval config = 0 → 1 ≤ epochs config →
  main_train (init w0) =
    ({| world := (train_epoch w0).1; best_val_loss := inf;
        best_val_metrics := None; best_val_epoch := -1; best_params := None;
        trace := [TrainEpoch 1] |}, Raise ZeroDivisionError).
Proof.
  intros Hz He. apply main_train_loop_raises.
  unfold Train.training_loop, epoch_range. rewrite seqZ_cons by lia.
  cbn [Train.for_epochs].
  unfold mbind, run_bind, Train.epoch, mbind, run_bind, call, lift, py_mod.
  cbn [init world]. destruct (train_epoch w0). by rewrite Hz.
Qed.

(** X13: when [train.val_epoch] reports no ["mse"], the run ends at its
    first validation: after [val_interval] epochs of training [main] raises
    [KeyError] for ["val_mse"], with nothing logged and nothing saved. *)
Theorem missing_mse_raises_at_first_validation w0 :
  (∀ w, (val_epoch w).2 !! "mse" = None) →
  0 < val_interval config ≤ epochs config →
  (main_train (init w0)).2 = Raise (KeyError (VStr "val_mse")) ∧
  rev (train_calls (trace (main_train (init w0)).1)) = seqZ 1 (val_interval config) ∧
  log_steps (trace (main_train (init w0)).1) = [] ∧
  checkpoints (trace (main_train (init w0)).1) = [].
Proof.
  intros Hmse [Hpos Hle].
  assert (epoch_range config =
          seqZ 1 (val_interval config - 1) ++
          val_interval config :: seqZ (val_interval config + 1)
                                      (epochs config - val_interval config)) as Hrange.
  { unfold epoch_range.
    replace (epochs config)
      with ((val_interval config - 1) + (epochs config - val_interval config + 1))
      at 1 by lia.
    rewrite seqZ_app by lia. f_equal. rewrite seqZ_cons by lia.
    f_equal; [lia |]. f_equal; lia. }
  destruct (for_epochs_unvalidated (seqZ 1 (val_interval config - 1)) (init w0))
    as (st & Hrun & Hp & Hm & Ht & Hc & Hl).
  { lia. }
  { apply Forall_seqZ. intros e He. apply unvalidated_below_interval; lia. }
  assert (∃ st', training_loop (init w0) = (st', Raise (KeyError (VStr "val_mse"))) ∧
                 train_calls (trace st') = val_interval config :: train_calls (trace st) ∧
                 log_steps (trace st') = log_steps (trace st) ∧
                 checkpoints (trace st') = checkpoints (trace st))
    as (st' & Hloop & Ht' & Hl' & Hc').
  { unfold Train.training_loop. rewrite Hrange, for_epochs_app, Hrun.
    cbn [Train.for_epochs]. unfold mbind at 1, run_bind at 1.
    unfold Train.epoch, mbind, run_bind, call, lift, py_mod, get, emit.
    destruct (train_epoch (world st)) as [w1 l].
    rewrite (proj2 (Z.eqb_neq _ _)) by lia. fields.
    rewrite Z_mod_same_full. cbn [Z.eqb]. fields.
    pose proof (Hmse w1) as Hnone. destruct (val_epoch w1) as [w2 m].
    cbn [snd] in Hnone. fields. unfold getitem.
    rewrite log_metrics_val_mse, Hnone. eexists. split; [reflexivity |]. by cbn. }
  rewrite (main_train_loop_raises _ _ _ Hloop). cbn [fst snd].
  rewrite Ht', Hl', Hc', Ht, Hl, Hc. cbn. rewrite app_nil_r, rev_involutive.
  repeat split; try done.
  replace (val_interval config) with (Z.of_nat (S (Z.to_nat (val_interval config - 1))))
    at 3 by lia.
  rewrite seqZ_S. rewrite Z2Nat.id by lia. do 2 f_equal. lia.
Qed.

(** *** The summary *)

Lemma for_each_emit {A} (f : A → event Params) xs : ∀ st : state,
  for_each (λ x, emit (f x)) xs st =
    ({| world := world st; best_val_loss := best_val_loss st;
        best_val_metrics := best_val_metrics st;
        best_val_epoch := best_val_epoch st; best_params := best_params st;
        trace := rev (f <$> xs) ++ trace st |}, Ok tt).
Proof.
  induction xs as [|x xs IH]; intros st.
  - by destruct st.
  - cbn [for_each]. unfold mbind at 1, run_bind at 1, emit at 1.
    rewrite IH. cbn. by rewrite <- app_assoc.
Qed.

Lemma delete_train_loss l (m : gmap string float) :
  delete "train_loss" (make_log_metrics l m) = kmap (String.app "val_") m.
Proof.
  unfold make_log_metrics.
  rewrite delete_union, delete_singleton_eq, (right_id_L ∅ (∪)).
  apply delete_id, lookup_kmap_None; [apply _ |]. intros i Hi. discriminate Hi.
Qed.

(** X14: when the best metrics are those of a validated epoch, the summary
    update succeeds and [wandb.run.summary] receives exactly the validation
    metrics of that epoch under their [val_] names, without the training
    loss, followed by one histogram per GRU cell when [decay_type] is
    ["to_const"] and by nothing otherwise. *)
Theorem summary_holds_best_validation_metrics st l m :
  best_val_metrics st = Some (make_log_metrics l m) →
  ∃ st',
    update_summary st = (st', Ok tt) ∧
    best_val_metrics st' = Some (kmap (String.app "val_") m) ∧
    trace st' =
      (if String.eqb (decay_type config) "to_const"
       then rev (SummaryHistogram <$> seq 0 (gru_cells (world st)))
       else []) ++
      rev ((λ kv, Summary kv.1 kv.2) <$> map_to_list (kmap (String.app "val_") m)) ++
      trace st.
Proof.
  intros Hm. unfold Train.update_summary.
  unfold mbind at 1, run_bind at 1, get at 1. rewrite Hm.
  unfold mbind at 1, run_bind at 1, lift at 1, getitem.
  rewrite log_metrics_train_loss, delete_train_loss.
  unfold mbind at 1, run_bind at 1. cbn [set_best_val_metrics].
  unfold mbind at 1, run_bind at 1.
  rewrite (for_each_emit (λ kv : string * float, Summary kv.1 kv.2)).
  destruct (String.eqb (decay_type config) "to_const").
  - unfold mbind, run_bind, get. fields.
    rewrite (for_each_emit SummaryHistogram). eexists. split; [reflexivity |].
    by cbn.
  - eexists. split; [reflexivity |]. by cbn.
Qed.

(** *** Optional calls *)

Lemma emits_weaken {A} (P Q : event Params → Prop) (m : run A) :
  (∀ ev, P ev → Q ev) → emits P m → emits Q m.
Proof.
  intros HPQ Hm st. destruct (Hm st) as (new & Ht & HP).
  exists new. split; [done |]. by eapply Forall_impl.
Qed.

Ltac asked_step :=
  first
    [ apply emits_ret | apply emits_lift | apply emits_get
    | apply emits_emit; cbn;
      first [exact I | by apply Z.eqb_neq | by apply String.eqb_eq]
    | apply emits_call; cbn; first [exact I | by apply Z.eqb_neq]
    | apply emits_set_world | apply emits_set_best_val_metrics
    | apply emits_for_each; intros ?
    | apply emits_bind; [| intros ?]
    | match goal with
      | |- emits _ (if ?c then _ else _) => destruct c eqn:?
      | |- emits _ (match ?x with _ => _ end) => destruct x
      end ].

(** X15: [main] writes a PDF only when [save_pdf] is non-zero, evaluates on
    the test set only when [test] is non-zero, and logs decay histograms
    only when [decay_type] is ["to_const"]. *)
Theorem optional_calls_are_asked_for w0 :
  Forall (asked_for config) (trace (main_train (init w0)).1).
Proof.
  assert (emits (asked_for config) main_train) as Hmain.
  { unfold Train.main_train.
    apply emits_bind; [| intros _].
    { apply (emits_weaken loop_event); [by intros [] | apply emits_for_epochs]. }
    apply emits_bind; [| intros _].
    { unfold Train.save_params. repeat asked_step. }
    apply emits_bind; [| intros _].
    { unfold Train.restore_and_plot. repeat asked_step. }
    apply emits_bind; [| intros _].
    { unfold Train.update_summary. repeat asked_step. }
    unfold Train.evaluate_test. repeat asked_step. }
  destruct (Hmain (init w0)) as (new & Ht & Hnew).
  rewrite Ht. cbn. by rewrite app_nil_r.
Qed.

(** *** The patience test on integers *)

Lemma last_lowered_bounds w0 n :
  last_lowered w0 n = -1 ∨ 1 ≤ last_lowered w0 n ≤ Z.of_nat n.
Proof.
  induction n as [|n IH]; [by left |]. cbn [Train.last_lowered].
  destruct (lowered_best w0 (S n)); lia.
Qed.

Lemma patience_spent_count w0 n :
  0 < val_interval config →
  patience_spent w0 n = true ↔
    validated (Z.of_nat n) = true ∧
    patience config * val_interval config ≤ Z.of_nat n - last_lowered w0 n.
Proof.
  intros Hpos. unfold Train.patience_spent.
  rewrite andb_true_iff, bool_decide_eq_true. by rewrite truediv_ge.
Qed.

(** *** Restoring and plotting *)

Lemma for_each_figures xs : ∀ st : state,
  for_each (λ fig_i : nat,
      _ ← (if Z.eqb (save_pdf config) 0 then mret tt
           else emit (Savefig (path_join run_dir
                         ("val_pred_" +:+ pretty fig_i +:+ ".pdf"))));
      emit (WandbLogImage fig_i)) xs st =
    ({| world := world st; best_val_loss := best_val_loss st;
        best_val_metrics := best_val_metrics st;
        best_val_epoch := best_val_epoch st; best_params := best_params st;
        trace :=
          rev (flat_map (λ fig_i,
                 (if Z.eqb (save_pdf config) 0 then []
                  else [Savefig (path_join run_dir
                                   ("val_pred_" +:+ pretty fig_i +:+ ".pdf"))])
                 ++ [WandbLogImage fig_i]) xs) ++ trace st |}, Ok tt).
Proof.
  induction xs as [|x xs IH]; intros st.
  - by destruct st.
  - cbn [for_each flat_map]. unfold mbind at 1, run_bind at 1.
    unfold mbind at 1, run_bind at 1.
    destruct (save_pdf config =? 0) eqn:Hpdf;
      cbn [mret run_ret emit]; rewrite IH; fields;
      rewrite ?Hpdf, rev_app_distr, <- app_assoc; by cbn.
Qed.

(** X20: when the best parameters are a copy [p], [torch.save] writes [p],
    [load_state_dict] receives the same [p], the figures are drawn from the
    model with [p] loaded, and each figure [i] is logged as an image and,
    when [save_pdf] is set, saved as [val_pred_<i>.pdf] in the run
    directory; none of this raises. *)
Theorem restore_loads_what_was_saved st p :
  best_params st = Some (Copy p) →
  trace (save_params st).1 =
    TorchSave (Some p) (path_join run_dir PARAM_FILE_NAME) :: trace st ∧
  ∃ st',
    restore_and_plot (save_params st).1 = (st', Ok tt) ∧
    world st' = load_state_dict p (world st) ∧
    best_params st' = Some (Copy p) ∧
    trace st' =
      rev (figure_calls run_dir config
             (plot_prediction (load_state_dict p (world st)))) ++
      PlotPrediction :: LoadStateDict p ::
      TorchSave (Some p) (path_join run_dir PARAM_FILE_NAME) :: trace st.
Proof.
  intros Hp. rewrite save_params_eq, Hp. cbn [fst trace fmap option_fmap option_map].
  split; [done |].
  unfold Train.restore_and_plot.
  unfold mbind at 1, run_bind at 1, get at 1. fields. rewrite ?Hp.
  unfold mbind, run_bind, get, set_world, emit. fields. cbn [Train.contents].
  rewrite for_each_figures. eexists. split; [reflexivity |]. fields.
  by rewrite ?Hp.
Qed.

Section Validation.
(** [val_epoch] reports an ["mse"]. *)
Hypothesis reports_mse : ∀ w, is_Some ((val_epoch w).2 !! "mse").

Lemma epoch_spec w0 k st :
  val_interval config ≠ 0 →
  after w0 k st →
  ∃ st',
    epoch (Z.of_nat (S k)) st =
      (st', Ok (if patience_spent w0 (S k) then Break else Continue)) ∧
    after w0 (S k) st'.
Proof.
  intros interval_nonzero (Hw & Hb & He & Hp & Hm).
  unfold Train.patience_spent, Train.after.
  cbn [Train.last_lowered Train.best_mse Train.world_after].
  unfold Train.lowered_best, Train.val_mse_at, Train.epoch_world, Train.validated.
  cbn [pred].
  unfold Train.epoch, mbind, run_bind, call, lift, py_mod, get, emit.
  rewrite Hw. destruct (train_epoch (world_after w0 k)) as [w1 l] eqn:Ht.
  cbn [fst snd].
  apply Z.eqb_neq in interval_nonzero as Hz. rewrite Hz. cbn [negb andb].
  pose proof (reports_mse w1) as [v Hv]. rewrite Hv.
  destruct (Z.of_nat (S k) `mod` val_interval config =? 0) eqn:Hmod; cbn [andb].
  2:{ eexists. split; [reflexivity |]. cbn. done. }
  fields. destruct (val_epoch w1) as [w2 m] eqn:Hval. cbn [fst snd] in *.
  unfold getitem. rewrite log_metrics_val_mse, Hv. fields. rewrite Hb.
  unfold py_truediv. rewrite Hz.
  assert (world_after w0 (Z.to_nat (Z.of_nat (S k))) = w2) as Hw2.
  { rewrite Nat2Z.id. cbn [Train.world_after].
    unfold Train.epoch_world, Train.validated.
    by rewrite Ht, Hz, Hmod; cbn; rewrite Hval. }
  destruct (float_lt v (best_mse w0 k)) eqn:Hlt.
  - cbn [record_best best_val_epoch].
    destruct (bool_decide _) eqn:Hpat;
      (eexists; split; [reflexivity |]; cbn;
       destruct (decide (Z.of_nat (S k) = -1)) as [|_]; [lia |];
       rewrite Hw2; repeat split; exists (make_log_metrics l m);
       by rewrite log_metrics_train_loss).
  - cbn [mret run_ret best_val_epoch]. rewrite He.
    destruct (bool_decide _) eqn:Hpat;
      (eexists; split; [reflexivity |]; cbn; done).
Qed.

(** What the loop returns from the state after [k] epochs on, going through
    [m] more. *)
Lemma for_epochs_spec w0 m : ∀ k st,
  val_interval config ≠ 0 →
  after w0 k st →
  ∃ st' x n,
    for_epochs (seqZ (Z.of_nat (S k)) (Z.of_nat m)) st = (st', Ok x) ∧
    after w0 n st' ∧
    match x with
    | Exhausted =>
        n = (k + m)%nat ∧ ∀ j, (k < j ≤ n)%nat → patience_spent w0 j = false
    | Broke e =>
        e = Z.of_nat n ∧ (k < n ≤ k + m)%nat ∧ patience_spent w0 n = true ∧
        ∀ j, (k < j < n)%nat → patience_spent w0 j = false
    end.
Proof.
  induction m as [|m IH]; intros k st Hz Hafter.
  - exists st, Exhausted, k. rewrite seqZ_nil by lia.
    split; [done |]. split; [done |]. split; [lia | intros; lia].
  - rewrite seqZ_cons by lia.
    replace (Z.succ (Z.of_nat (S k))) with (Z.of_nat (S (S k))) by lia.
    replace (Z.pred (Z.of_nat (S m))) with (Z.of_nat m) by lia.
    cbn [Train.for_epochs]. unfold mbind at 1, run_bind at 1.
    destruct (epoch_spec w0 k st Hz Hafter) as (st1 & -> & Hafter1).
    destruct (patience_spent w0 (S k)) eqn:Hspent.
    + exists st1, (Broke (Z.of_nat (S k))), (S k).
      split; [done |]. split; [done |]. repeat split; try done; try lia.
    + destruct (IH (S k) st1 Hz Hafter1) as (st' & x & n & -> & Hn & Hx).
      exists st', x, n. split; [done |]. split; [done |].
      destruct x as [|e].
      * destruct Hx as [-> Hx]. split; [lia |]. intros j Hj.
        destruct (decide (j = S k)) as [-> |]; [done | apply Hx; lia].
      * destruct Hx as (-> & Hr & Hs & Hx). repeat split; try done; try lia.
        intros j Hj. destruct (decide (j = S k)) as [-> |]; [done | apply Hx; lia].
Qed.

Lemma training_loop_spec w0 :
  val_interval config ≠ 0 →
  ∃ st x,
    training_loop (init w0) = (st, Ok x) ∧
    after w0 (epochs_run config x) st ∧
    match x with
    | Exhausted =>
        ∀ j, (1 ≤ j ≤ Z.to_nat (epochs config))%nat → patience_spent w0 j = false
    | Broke e =>
        ∃ n, e = Z.of_nat n ∧ (1 ≤ n)%nat ∧ Z.of_nat n ≤ epochs config ∧
             patience_spent w0 n = true ∧
             ∀ j, (1 ≤ j < n)%nat → patience_spent w0 j = false
    end.
Proof.
  intros Hz. unfold Train.training_loop, epoch_range.
  rewrite seqZ_to_nat.
  destruct (for_epochs_spec w0 (Z.to_nat (epochs config)) 0 (init w0) Hz
              (after_init w0)) as (st & x & n & Hrun & Hafter & Hx).
  exists st, x. split; [exact Hrun |]. destruct x as [|e].
  - destruct Hx as [-> Hx]. split; [done |]. intros j Hj. apply Hx. lia.
  - destruct Hx as (-> & Hr & Hs & Hx). cbn [epochs_run]. rewrite Nat2Z.id.
    split; [done |]. exists n. repeat split; try done; try lia.
Qed.

Lemma loop_after w0 st x :
  training_loop (init w0) = (st, Ok x) → after w0 (epochs_run config x) st.
Proof.
  intros Hrun. destruct (decide (val_interval config = 0)) as [Hz | Hz].
  - destruct (decide (1 ≤ epochs config)) as [He | He].
    + pose proof (loop_zero_interval (init w0) Hz He) as Hr.
      rewrite Hrun in Hr. discriminate Hr.
    + rewrite loop_no_epochs in Hrun by lia. injection Hrun as <- <-.
      cbn [epochs_run]. replace (Z.to_nat (epochs config)) with 0%nat by lia.
      apply after_init.
  - destruct (training_loop_spec w0 Hz) as (st' & x' & Hrun' & Hafter & _).
    congruence.
Qed.

(** C1: the loop breaks in epoch [e] exactly when [e] is the first epoch
    within [1 .. epochs] that is validated and at which
    [(e - best_val_epoch) / val_interval >= patience], where [best_val_epoch]
    is the most recent validated epoch that strictly lowered the best
    validation MSE, or [-1]; it runs through all epochs exactly when there
    is no such epoch and no epoch raises.  For a positive [val_interval] the
    test says that [patience] validation intervals have passed since
    [best_val_epoch]. *)
Theorem early_stopping_at_first_spent_patience w0 :
  let outcome := (training_loop (init w0)).2 in
  (∀ e, outcome = Ok (Broke e) ↔
        ∃ n, e = Z.of_nat n ∧ (1 ≤ n)%nat ∧ Z.of_nat n ≤ epochs config ∧
             patience_spent w0 n = true ∧
             ∀ j, (1 ≤ j < n)%nat → patience_spent w0 j = false) ∧
  (outcome = Ok Exhausted ↔
     (val_interval config ≠ 0 ∨ epochs config ≤ 0) ∧
     ∀ j, (1 ≤ j)%nat → Z.of_nat j ≤ epochs config → patience_spent w0 j = false) ∧
  (∀ x, outcome = Ok x →
        best_val_epoch (training_loop (init w0)).1 =
          last_lowered w0 (epochs_run config x)) ∧
  (0 < val_interval config →
   ∀ n, patience_spent w0 n = true ↔
        validated (Z.of_nat n) = true ∧
        patience config * val_interval config ≤ Z.of_nat n - last_lowered w0 n).
Proof.
  intros outcome. subst outcome.
  match goal with |- ?A ∧ ?B ∧ ?C ∧ ?D =>
    assert D as Hcount;
      [| cut (A ∧ B ∧ C);
         [intros (HA & HB & HC); exact (conj HA (conj HB (conj HC Hcount))) |]]
  end.
  { intros Hpos n. unfold Train.patience_spent.
    rewrite andb_true_iff, bool_decide_eq_true. by rewrite truediv_ge. }
  clear Hcount.
  destruct (decide (val_interval config = 0)) as [Hz | Hz].
  - (* no epoch is ever validated *)
    split; [| split].
    + intros e. split.
      * intros Hrun. destruct (decide (1 ≤ epochs config)) as [He | He].
        -- rewrite (loop_zero_interval _ Hz He) in Hrun. discriminate Hrun.
        -- rewrite loop_no_epochs in Hrun by lia. discriminate Hrun.
      * intros (n & _ & _ & _ & Hs & _).
        rewrite patience_spent_zero_interval in Hs by done. discriminate Hs.
    + split.
      * intros Hrun. split.
        -- right. destruct (decide (1 ≤ epochs config)) as [He | He]; [| lia].
           rewrite (loop_zero_interval _ Hz He) in Hrun. discriminate Hrun.
        -- intros. by apply patience_spent_zero_interval.
      * intros [[? | He] _]; [done |]. by rewrite loop_no_epochs.
    + intros x Hx. destruct (training_loop (init w0)) as [st r] eqn:Hrun.
      cbn [fst snd] in *. subst r. by destruct (loop_after _ _ _ Hrun) as (_ & _ & ? & _).
  - destruct (training_loop_spec w0 Hz) as (st & x & Hrun & Hafter & Hx).
    rewrite Hrun. cbn [fst snd]. split; [| split].
    + intros e. split.
      * intros [= ->]. exact Hx.
      * intros (n & -> & Hn & Hle & Hs & Hfirst). destruct x as [|e'].
        -- rewrite (Hx n) in Hs by lia. discriminate Hs.
        -- destruct Hx as (n' & -> & Hn' & Hle' & Hs' & Hfirst').
           destruct (lt_eq_lt_dec n n') as [[Hlt | ->] | Hgt]; [| done |].
           ++ rewrite (Hfirst' n) in Hs by lia. discriminate Hs.
           ++ rewrite (Hfirst n') in Hs' by lia. discriminate Hs'.
    + split.
      * intros [= ->]. split; [by left |]. intros j Hj Hle. apply Hx. lia.
      * intros [_ Hnone]. destruct x as [|e']; [done |].
        destruct Hx as (n' & -> & Hn' & Hle' & Hs' & _).
        rewrite (Hnone n') in Hs' by lia. discriminate Hs'.
    + intros x' [= <-]. by destruct Hafter as (_ & _ & ? & _).
Qed.

(** C2, amended: when the loop finishes and some validation it ran reported
    a [val_mse] below [np.inf], what [torch.save] writes is the copy of the
    state dict made right after the validation of an epoch [k], untouched
    by the training that followed, where the [val_mse] of [k] is itself
    below [np.inf] (so neither [inf] nor NaN), no validation of the run has
    a [val_mse] strictly below that of [k], and every earlier validation
    has one strictly above it (or NaN).  These conditions fix [k]: it is
    the only epoch of the run that meets them. *)
Theorem best_checkpoint_saved w0 st x :
  training_loop (init w0) = (st, Ok x) →
  some_finite_validation w0 (epochs_run config x) →
  ∃ k v,
    (1 ≤ k ≤ epochs_run config x)%nat ∧
    validated (Z.of_nat k) = true ∧ val_mse_at w0 k = Some v ∧
    float_lt v inf = true ∧
    (∃ later,
       trace (main_train (init w0)).1 =
         later ++ TorchSave (Some (state_dict (world_after w0 k)))
                    (path_join run_dir PARAM_FILE_NAME) :: trace st ∧
       Forall report_event later) ∧
    (∀ j u, (1 ≤ j ≤ epochs_run config x)%nat → validated (Z.of_nat j) = true →
            val_mse_at w0 j = Some u → float_lt u v = false) ∧
    (∀ j u, (1 ≤ j < k)%nat → validated (Z.of_nat j) = true →
            val_mse_at w0 j = Some u → float_le u v = false) ∧
    (∀ k' v', (1 ≤ k' ≤ epochs_run config x)%nat →
              validated (Z.of_nat k') = true → val_mse_at w0 k' = Some v' →
              float_lt v' inf = true →
              (∀ j u, (1 ≤ j ≤ epochs_run config x)%nat →
                      validated (Z.of_nat j) = true →
                      val_mse_at w0 j = Some u → float_lt u v' = false) →
              (∀ j u, (1 ≤ j < k')%nat → validated (Z.of_nat j) = true →
                      val_mse_at w0 j = Some u → float_le u v' = false) →
              k' = k).
Proof.
  intros Hrun Hfin. pose proof (loop_after _ _ _ Hrun) as (_ & _ & _ & Hp & _).
  apply finite_validation_iff in Hfin.
  destruct (last_lowered_some _ _ Hfin)
    as (k & v & Hk & Hr & Hval & Hv & Hbest & Hbelow & Hearly).
  rewrite decide_False in Hp by done. rewrite Hk, Nat2Z.id in Hp.
  assert (∀ j u, (1 ≤ j ≤ epochs_run config x)%nat → validated (Z.of_nat j) = true →
                 val_mse_at w0 j = Some u → float_lt u v = false) as Hmin.
  { intros j u Hj Hjv Hu. rewrite <- Hbest. by apply (best_mse_bound w0 _ j). }
  exists k, v. repeat split; try done; try lia.
  - destruct (main_train_after_loop _ _ _ Hrun) as (later & Ht & Hlater).
    exists later. by rewrite Ht, Hp.
  - intros k' v' Hk' Hval' Hv' Hbelow' Hmin' Hearly'.
    pose proof (Hmin k' v' Hk' Hval' Hv') as Hnot_lt'.
    pose proof (Hmin' k v Hr Hval Hv) as Hnot_lt.
    pose proof (float_lt_total v v' Hbelow Hbelow' Hnot_lt Hnot_lt') as Hle.
    destruct Hle as [Hle Hle'].
    destruct (lt_eq_lt_dec k k') as [[Hlt | ->] | Hgt]; [| done |].
    + rewrite (Hearly' k v) in Hle by (done || lia). discriminate Hle.
    + rewrite (Hearly k' v') in Hle' by (done || lia). discriminate Hle'.
Qed.

(** C10, amended: after a loop that finishes, [best_params] is a state
    dict exactly when some validation the loop ran reported a [val_mse]
    below [np.inf], and exactly then [best_val_metrics] is a dictionary and
    [best_val_epoch] an epoch; in that case the save writes that state
    dict, [load_state_dict] and the summary update work on it and on the
    metrics, and [main] does not raise. *)
Theorem best_params_set_by_finite_validation w0 st x :
  training_loop (init w0) = (st, Ok x) →
  (is_Some (best_params st) ↔ some_finite_validation w0 (epochs_run config x)) ∧
  (is_Some (best_val_metrics st) ↔ is_Some (best_params st)) ∧
  (best_val_epoch st ≠ -1 ↔ is_Some (best_params st)) ∧
  (is_Some (best_params st) →
     ∃ p st1 st2 st3,
       best_params st = Some (Copy p) ∧
       save_params st = (st1, Ok tt) ∧
       trace st1 = TorchSave (Some p) (path_join run_dir PARAM_FILE_NAME) :: trace st ∧
       restore_and_plot st1 = (st2, Ok tt) ∧
       update_summary st2 = (st3, Ok tt) ∧
       (main_train (init w0)).2 = Ok tt).
Proof.
  intros Hrun. pose proof (loop_after _ _ _ Hrun) as (_ & _ & He & Hp & Hm).
  rewrite finite_validation_iff.
  destruct (decide (last_lowered w0 (epochs_run config x) = -1)) as [Hnone | Hsome].
  - rewrite Hp, Hm, He. repeat split; try done; by intros [? [=]].
  - destruct Hm as (m & Hm & Hloss). rewrite Hp, Hm, He.
    repeat split; try done; try by eauto.
    intros _. rewrite save_params_eq.
    destruct (restore_and_plot_Some
                {| world := world st; best_val_loss := best_val_loss st;
                   best_val_metrics := best_val_metrics st;
                   best_val_epoch := best_val_epoch st;
                   best_params := best_params st;
                   trace := TorchSave (contents (world st) <$> best_params st)
                              (path_join run_dir PARAM_FILE_NAME) :: trace st |}
                _ Hp) as (st2 & Hrestore & Hmetrics).
    cbn [best_val_metrics] in Hmetrics. rewrite Hm in Hmetrics.
    destruct (update_summary_Some st2 m Hmetrics Hloss) as (st3 & Hsummary).
    eexists _, _, st2, st3. split; [reflexivity |]. split; [reflexivity |].
    split; [by rewrite Hp |]. split; [exact Hrestore |]. split; [exact Hsummary |].
    unfold Train.main_train, mbind, run_bind.
    rewrite Hrun, save_params_eq, Hrestore, Hsummary. apply evaluate_test_Ok.
Qed.

(** *** When early stopping fires *)

Lemma validated_at_interval :
  0 < val_interval config →
  validated (Z.of_nat (Z.to_nat (val_interval config))) = true.
Proof.
  intros Hpos. rewrite Z2Nat.id by lia. unfold Train.validated.
  rewrite Z_mod_same_full. rewrite (proj2 (Z.eqb_neq _ _)) by lia. done.
Qed.

(** X16: with a [patience] of zero or less, the loop breaks at its first
    validation, in epoch [val_interval], whatever the validation reports. *)
Theorem nonpositive_patience_stops_at_first_validation w0 :
  0 < val_interval config ≤ epochs config →
  patience config ≤ 0 →
  (training_loop (init w0)).2 = Ok (Broke (val_interval config)).
Proof.
  intros [Hpos Hle] Hpat.
  destruct (training_loop_spec w0) as (st & x & Hrun & _ & Hx); [lia |].
  rewrite Hrun. cbn [snd].
  assert (patience_spent w0 (Z.to_nat (val_interval config)) = true) as Hspent.
  { apply patience_spent_count; [done |]. split; [by apply validated_at_interval |].
    pose proof (last_lowered_bounds w0 (Z.to_nat (val_interval config))). nia. }
  destruct x as [|e].
  - rewrite (Hx (Z.to_nat (val_interval config))) in Hspent by lia.
    discriminate Hspent.
  - destruct Hx as (n & -> & Hn & Hen & Hs & Hfirst).
    apply patience_spent_count in Hs as [Hval _]; [| done].
    destruct (decide (Z.of_nat n < val_interval config)) as [Hlt | Hge].
    + rewrite unvalidated_below_interval in Hval by lia. discriminate Hval.
    + destruct (decide (Z.of_nat n = val_interval config)) as [-> | Hne]; [done |].
      rewrite (Hfirst (Z.to_nat (val_interval config))) in Hspent by lia.
      discriminate Hspent.
Qed.

(** X17: when the loop breaks in epoch [e] under a positive [val_interval],
    [e] is a validated epoch within the range, at least
    [patience * val_interval] epochs lie between [best_val_epoch] and [e],
    and for a [patience] of one or more the validation of [e] itself did
    not lower the best MSE. *)
Theorem break_after_patience w0 st e :
  0 < val_interval config →
  training_loop (init w0) = (st, Ok (Broke e)) →
  1 ≤ e ≤ epochs config ∧ e `mod` val_interval config = 0 ∧
  patience config * val_interval config ≤ e - best_val_epoch st ∧
  (1 ≤ patience config → best_val_epoch st < e).
Proof.
  intros Hpos Hrun.
  destruct (training_loop_spec w0) as (st' & x & Hrun' & Hafter & Hx); [lia |].
  rewrite Hrun in Hrun'. injection Hrun' as <- <-.
  destruct Hx as (n & -> & Hn & Hen & Hs & _).
  destruct Hafter as (_ & _ & He & _). cbn [epochs_run] in He.
  rewrite Nat2Z.id in He.
  apply patience_spent_count in Hs as [Hval Hcount]; [| done].
  unfold Train.validated in Hval. apply andb_true_iff in Hval as [_ Hmod%Z.eqb_eq].
  rewrite He. repeat split; try done; try lia.
Qed.

(** X18: under a positive [val_interval] and a [patience] of one or more, a
    run in which every validation strictly lowers the best MSE is never
    stopped early: the loop goes through all its epochs. *)
Theorem always_improving_never_stops w0 :
  0 < val_interval config → 1 ≤ patience config →
  (∀ n, (1 ≤ n)%nat → Z.of_nat n ≤ epochs config →
        validated (Z.of_nat n) = true → lowered_best w0 n = true) →
  (training_loop (init w0)).2 = Ok Exhausted.
Proof.
  intros Hpos Hpat Himp.
  destruct (training_loop_spec w0) as (st & x & Hrun & _ & Hx); [lia |].
  rewrite Hrun. cbn [snd]. destruct x as [|e]; [done |].
  destruct Hx as (n & -> & Hn & Hen & Hs & _).
  apply patience_spent_count in Hs as [Hval Hcount]; [| done].
  destruct n as [|n]; [lia |]. cbn [Train.last_lowered] in Hcount.
  rewrite (Himp (S n)) in Hcount by (done || lia). nia.
Qed.

End Validation.

End Run.

(** *** The theorems at the sample run *)

Lemma sample_reports_mse mses w : is_Some ((Sample.val_epoch mses w).2 !! "mse").
Proof. exists (nth (pred w) mses NaN). apply lookup_singleton_eq. Defined.

Lemma sample_loop_breaks :
  Sample.loop Sample.mses Sample.patient =
    ((Sample.loop Sample.mses Sample.patient).1, Ok (Broke 5)).
Proof. vm_compute. reflexivity. Defined.

Lemma sample_finite_validation :
  some_finite_validation Sample.train_epoch (Sample.val_epoch Sample.mses)
    Sample.patient 0%nat (epochs_run Sample.patient (Broke 5)).
Proof.
  exists 1%nat, (Sample.finite 5). split; [vm_compute; lia |].
  split; [reflexivity |]. split; [vm_compute; reflexivity | reflexivity].
Defined.

Example checkpoint_path :
  path_join "/wandb/run" "best_params.pt" = "/wandb/run/best_params.pt".
Proof. reflexivity. Qed.

Example zero_val_interval :
  (Sample.loop Sample.mses (Sample.settings_of 3 0 1)).2 = Raise ZeroDivisionError.
Proof. vm_compute. reflexivity. Qed.

(** The sample run stops in epoch 5 with the copy made in epoch 2, while the
    model itself has moved on. *)
Example sample_checkpoint :
  checkpoints (trace (Sample.main Sample.mses Sample.patient).1) =
    ["/wandb/run/best_params.pt"] ∧
  best_params (Sample.loop Sample.mses Sample.patient).1 = Some (Copy 2%nat) ∧
  Train.contents id (world (Sample.loop Sample.mses Sample.patient).1) Live = 5%nat.
Proof. vm_compute. repeat split; reflexivity. Qed.

Lemma early_stopping_witness :
  (∀ w, is_Some ((Sample.val_epoch Sample.mses w).2 !! "mse")) ∧
  ((Sample.loop Sample.mses Sample.patient).2 = Ok (Broke 5) ↔
   ∃ n, 5 = Z.of_nat n ∧ (1 ≤ n)%nat ∧ Z.of_nat n ≤ epochs Sample.patient ∧
        patience_spent Sample.train_epoch (Sample.val_epoch Sample.mses)
          Sample.patient 0%nat n = true ∧
        ∀ j, (1 ≤ j < n)%nat →
             patience_spent Sample.train_epoch (Sample.val_epoch Sample.mses)
               Sample.patient 0%nat j = false).
Proof.
  split; [apply sample_reports_mse |].
  exact (proj1 (early_stopping_at_first_spent_patience Sample.train_epoch
                  (Sample.val_epoch Sample.mses) id Sample.patient
                  (sample_reports_mse Sample.mses) 0%nat) 5).
Defined.

Lemma best_checkpoint_saved_witness :
  ∃ k v,
    (1 ≤ k ≤ epochs_run Sample.patient (Broke 5))%nat ∧
    validated Sample.patient (Z.of_nat k) = true ∧
    val_mse_at Sample.train_epoch (Sample.val_epoch Sample.mses)
      Sample.patient 0%nat k = Some v ∧
    float_lt v inf = true ∧
    (∃ later,
       trace (Sample.main Sample.mses Sample.patient).1 =
         later ++ TorchSave
                    (Some (id (world_after Sample.train_epoch
                                 (Sample.val_epoch Sample.mses) Sample.patient
                                 0%nat k)))
                    (path_join "/wandb/run" "best_params.pt")
               :: trace (Sample.loop Sample.mses Sample.patient).1 ∧
       Forall report_event later) ∧
    (∀ j u, (1 ≤ j ≤ epochs_run Sample.patient (Broke 5))%nat →
            validated Sample.patient (Z.of_nat j) = true →
            val_mse_at Sample.train_epoch (Sample.val_epoch Sample.mses)
              Sample.patient 0%nat j = Some u →
            float_lt u v = false) ∧
    (∀ j u, (1 ≤ j < k)%nat →
            validated Sample.patient (Z.of_nat j) = true →
            val_mse_at Sample.train_epoch (Sample.val_epoch Sample.mses)
              Sample.patient 0%nat j = Some u →
            float_le u v = false) ∧
    (∀ k' v', (1 ≤ k' ≤ epochs_run Sample.patient (Broke 5))%nat →
              validated Sample.patient (Z.of_nat k') = true →
              val_mse_at Sample.train_epoch (Sample.val_epoch Sample.mses)
                Sample.patient 0%nat k' = Some v' →
              float_lt v' inf = true →
              (∀ j u, (1 ≤ j ≤ epochs_run Sample.patient (Broke 5))%nat →
                      validated Sample.patient (Z.of_nat j) = true →
                      val_mse_at Sample.train_epoch (Sample.val_epoch Sample.mses)
                        Sample.patient 0%nat j = Some u →
                      float_lt u v' = false) →
              (∀ j u, (1 ≤ j < k')%nat →
                      validated Sample.patient (Z.of_nat j) = true →
                      val_mse_at Sample.train_epoch (Sample.val_epoch Sample.mses)
                        Sample.patient 0%nat j = Some u →
                      float_le u v' = false) →
              k' = k).
Proof.
  apply (best_checkpoint_saved Sample.train_epoch (Sample.val_epoch Sample.mses)
           (Sample.val_epoch Sample.mses) id (λ p _, p) (λ _, 1%nat) (λ _, 1%nat)
           "/wandb/run" "best_params.pt" Sample.patient
           (sample_reports_mse Sample.mses) 0%nat
           (Sample.loop Sample.mses Sample.patient).1 (Broke 5)).
  - exact sample_loop_breaks.
  - exact sample_finite_validation.
Defined.

Lemma best_params_set_by_finite_validation_witness :
  is_Some (best_params (Sample.loop Sample.mses Sample.patient).1) ↔
  some_finite_validation Sample.train_epoch (Sample.val_epoch Sample.mses)
    Sample.patient 0%nat (epochs_run Sample.patient (Broke 5)).
Proof.
  exact (proj1 (best_params_set_by_finite_validation Sample.train_epoch
                  (Sample.val_epoch Sample.mses) (Sample.val_epoch Sample.mses)
                  id (λ p _, p) (λ _, 1%nat) (λ _, 1%nat)
                  "/wandb/run" "best_params.pt" Sample.patient
                  (sample_reports_mse Sample.mses) 0%nat
                  (Sample.loop Sample.mses Sample.patient).1 (Broke 5)
                  sample_loop_breaks)).
Defined.

(** C8 as stated fails: with [val_interval = 0] the first epoch trains and
    then raises on [epoch_i % 0]; [main] ends there and nothing is saved. *)
Lemma no_checkpoint_when_loop_raises :
  let final := Sample.main Sample.mses (Sample.settings_of 3 0 1) in
  final.2 = Raise ZeroDivisionError ∧
  rev (trace final.1) = [TrainEpoch 1] ∧
  checkpoints (trace final.1) = [].
Proof. vm_compute. repeat split; reflexivity. Qed.

(** C2 as stated fails: two epochs, both validated, both with a
    validation MSE of [inf].  Validations are performed, and what
    [torch.save] writes is [None]. *)
Lemma checkpoint_of_infinite_losses_is_None :
  let final := Sample.main [PosInf; PosInf] (Sample.settings_of 2 1 10) in
  rev (trace final.1) =
    [ TrainEpoch 1; ValEpoch 1; PrintEpoch 1 (Sample.finite 0) PosInf;
      WandbLog (make_log_metrics (Sample.finite 0) {["mse" := PosInf]}) 1;
      TrainEpoch 2; ValEpoch 2; PrintEpoch 2 (Sample.finite 0) PosInf;
      WandbLog (make_log_metrics (Sample.finite 0) {["mse" := PosInf]}) 2;
      TorchSave None "/wandb/run/best_params.pt" ] ∧
  final.2 = Raise TypeError.
Proof. vm_compute. split; reflexivity. Qed.

(** C10 as stated fails: [epochs = val_interval = 1], so a validation
    runs, but it reports NaN.  After the loop [best_params] and
    [best_val_metrics] are still [None], [None] is what is saved, and
    [load_state_dict] is called on [None]. *)
Lemma best_params_None_after_nan_validation :
  let config := Sample.settings_of 1 1 10 in
  let loop := Sample.loop [NaN] config in
  let final := Sample.main [NaN] config in
  1 ≤ val_interval config ≤ epochs config ∧
  loop.2 = Ok Exhausted ∧
  best_params loop.1 = None ∧ best_val_metrics loop.1 = None ∧
  best_val_epoch loop.1 = -1 ∧
  rev (trace final.1) =
    [ TrainEpoch 1; ValEpoch 1; PrintEpoch 1 (Sample.finite 0) NaN;
      WandbLog (make_log_metrics (Sample.finite 0) {["mse" := NaN]}) 1;
      TorchSave None "/wandb/run/best_params.pt" ] ∧
  final.2 = Raise TypeError.
Proof. vm_compute. repeat split; first [reflexivity | discriminate]. Qed.

(** *** The further theorems at the sample runs *)

Lemma finished_loop_calls_witness :
  rev (train_calls (trace (Sample.loop Sample.mses Sample.patient).1)) =
    seqZ 1 (Z.of_nat (epochs_run Sample.patient (Broke 5))) ∧
  rev (log_steps (trace (Sample.loop Sample.mses Sample.patient).1)) =
    filter (λ e, validated Sample.patient e = true)
      (seqZ 1 (Z.of_nat (epochs_run Sample.patient (Broke 5)))).
Proof.
  apply (finished_loop_calls Sample.train_epoch (Sample.val_epoch Sample.mses) id
           Sample.patient 0%nat).
  exact sample_loop_breaks.
Defined.

Lemma too_few_epochs_to_validate_witness :
  ∃ st,
    Sample.loop Sample.mses (Sample.settings_of 2 5 3) = (st, Ok Exhausted) ∧
    best_params st = None ∧ best_val_metrics st = None ∧
    rev (train_calls (trace st)) = seqZ 1 2 ∧
    log_steps (trace st) = [] ∧
    (Sample.main Sample.mses (Sample.settings_of 2 5 3)).2 = Raise TypeError ∧
    trace (Sample.main Sample.mses (Sample.settings_of 2 5 3)).1 =
      TorchSave None (path_join "/wandb/run" "best_params.pt") :: trace st.
Proof.
  apply (too_few_epochs_to_validate Sample.train_epoch
           (Sample.val_epoch Sample.mses) (Sample.val_epoch Sample.mses) id
           (λ p _, p) (λ _, 1%nat) (λ _, 1%nat) "/wandb/run" "best_params.pt"
           (Sample.settings_of 2 5 3) 0%nat); cbn; lia.
Defined.

Lemma zero_val_interval_raises_witness :
  Sample.main Sample.mses (Sample.settings_of 3 0 1) =
    ({| world := 1%nat; best_val_loss := inf; best_val_metrics := None;
        best_val_epoch := -1; best_params := None;
        trace := [TrainEpoch 1] |}, Raise ZeroDivisionError).
Proof.
  apply (zero_val_interval_raises Sample.train_epoch
           (Sample.val_epoch Sample.mses) (Sample.val_epoch Sample.mses) id
           (λ p _, p) (λ _, 1%nat) (λ _, 1%nat) "/wandb/run" "best_params.pt"
           (Sample.settings_of 3 0 1) 0%nat); cbn; [reflexivity | lia].
Defined.

Lemma missing_mse_raises_at_first_validation_witness :
  (Sample.main_mae (Sample.settings_of 5 2 3)).2 = Raise (KeyError (VStr "val_mse")) ∧
  rev (train_calls (trace (Sample.main_mae (Sample.settings_of 5 2 3)).1)) =
    seqZ 1 2 ∧
  log_steps (trace (Sample.main_mae (Sample.settings_of 5 2 3)).1) = [] ∧
  checkpoints (trace (Sample.main_mae (Sample.settings_of 5 2 3)).1) = [].
Proof.
  apply (missing_mse_raises_at_first_validation Sample.train_epoch
           Sample.val_epoch_mae Sample.val_epoch_mae id
           (λ p _, p) (λ _, 1%nat) (λ _, 1%nat) "/wandb/run" "best_params.pt"
           (Sample.settings_of 5 2 3) 0%nat).
  - intros w. reflexivity.
  - cbn. lia.
Defined.

Lemma summary_holds_best_validation_metrics_witness :
  ∃ st',
    update_summary (λ _ : nat, 1%nat) Sample.patient
      (Sample.loop Sample.mses Sample.patient).1 = (st', Ok tt) ∧
    best_val_metrics st' = Some (kmap (String.app "val_") {["mse" := Sample.finite 3]}) ∧
    trace st' =
      (if String.eqb (decay_type Sample.patient) "to_const"
       then rev (SummaryHistogram <$> seq 0 1)
       else []) ++
      rev ((λ kv, Summary kv.1 kv.2) <$>
             map_to_list (kmap (String.app "val_")
                            ({["mse" := Sample.finite 3]} : gmap string float))) ++
      trace (Sample.loop Sample.mses Sample.patient).1.
Proof.
  apply (summary_holds_best_validation_metrics (λ _ : nat, 1%nat) Sample.patient
           (Sample.loop Sample.mses Sample.patient).1 (Sample.finite 0)).
  vm_compute. reflexivity.
Defined.

Lemma nonpositive_patience_stops_at_first_validation_witness :
  (Sample.loop Sample.mses (Sample.settings_of 10 2 0)).2 = Ok (Broke 2).
Proof.
  apply (nonpositive_patience_stops_at_first_validation Sample.train_epoch
           (Sample.val_epoch Sample.mses) id (Sample.settings_of 10 2 0)
           (sample_reports_mse Sample.mses) 0%nat); cbn; lia.
Defined.

Lemma break_after_patience_witness :
  1 ≤ 5 ≤ epochs Sample.patient ∧ 5 `mod` val_interval Sample.patient = 0 ∧
  patience Sample.patient * val_interval Sample.patient ≤
    5 - best_val_epoch (Sample.loop Sample.mses Sample.patient).1 ∧
  (1 ≤ patience Sample.patient →
   best_val_epoch (Sample.loop Sample.mses Sample.patient).1 < 5).
Proof.
  apply (break_after_patience Sample.train_epoch (Sample.val_epoch Sample.mses) id
           Sample.patient (sample_reports_mse Sample.mses) 0%nat).
  - cbn. lia.
  - exact sample_loop_breaks.
Defined.

Lemma always_improving_never_stops_witness :
  (Sample.loop Sample.falling (Sample.settings_of 3 1 1)).2 = Ok Exhausted.
Proof.
  apply (always_improving_never_stops Sample.train_epoch
           (Sample.val_epoch Sample.falling) id (Sample.settings_of 3 1 1)
           (sample_reports_mse Sample.falling) 0%nat).
  - cbn. lia.
  - cbn. lia.
  - intros n Hn Hle _. cbn in Hle.
    destruct n as [|[|[|[|n]]]]; try lia; vm_compute; reflexivity.
Defined.

Lemma restore_loads_what_was_saved_witness :
  trace (save_params id "/wandb/run" "best_params.pt"
           (Sample.loop Sample.mses Sample.patient).1).1 =
    TorchSave (Some 2%nat) (path_join "/wandb/run" "best_params.pt")
      :: trace (Sample.loop Sample.mses Sample.patient).1 ∧
  ∃ st',
    restore_and_plot id (λ p _, p) (λ _, 1%nat) "/wandb/run" Sample.patient
      (save_params id "/wandb/run" "best_params.pt"
         (Sample.loop Sample.mses Sample.patient).1).1 = (st', Ok tt) ∧
    world st' = 2%nat ∧
    best_params st' = Some (Copy 2%nat) ∧
    trace st' =
      rev (figure_calls "/wandb/run" Sample.patient 1) ++
      PlotPrediction :: LoadStateDict 2%nat ::
      TorchSave (Some 2%nat) (path_join "/wandb/run" "best_params.pt")
        :: trace (Sample.loop Sample.mses Sample.patient).1.
Proof.
  apply (restore_loads_what_was_saved id (λ p _, p) (λ _, 1%nat)
           "/wandb/run" "best_params.pt" Sample.patient
           (Sample.loop Sample.mses Sample.patient).1 2%nat).
  vm_compute. reflexivity.
Defined.

End TrainSpec.
